(** * WeaveGitOpsAddOn: a shallow embedding of [src/index.ts]

    The add-on has two lifecycle hooks, [deploy] and [postDeploy], a
    credential resolver [getSshKeyFromSecret] and a helper
    [base64EncodeContents].  The hooks talk to two collaborators that are
    not part of the repository: the Secrets Manager client and the
    cluster's [addHelmChart].  Both are taken as an environment; everything
    else is translated from the TypeScript source, line by line. *)

From Stdlib Require Import ZArith List String Ascii Bool Lia ZifyBool.
Import ListNotations.
Local Open Scope Z_scope.

(** ** JavaScript strings

    A JavaScript string is a sequence of UTF-16 code units.  The
    distinction matters for [Buffer.from(_, 'binary')], which keeps only
    the low byte of every unit. *)

Module JsString.

Definition jsstring := list Z.

Definition unit_of_ascii (a : ascii) : Z := Z.of_nat (nat_of_ascii a).

(** A literal of the source text (all literals of [index.ts] are ASCII). *)
Definition str (s : string) : jsstring :=
  map unit_of_ascii (list_ascii_of_string s).

(** The literal [s] between double quotes, as it appears inside a JSON
    text. *)
Definition quoted (s : string) : jsstring := 34 :: str s ++ [34].

Fixpoint eqb (s t : jsstring) : bool :=
  match s, t with
  | [], [] => true
  | c :: s', d :: t' => (c =? d) && eqb s' t'
  | _, _ => false
  end.

(** Every unit of a real string fits in 16 bits. *)
Definition well_formed (s : jsstring) : Prop :=
  Forall (fun c => 0 <= c < 65536) s.

(** A "binary string": every unit is a byte. *)
Definition is_binary (s : jsstring) : bool :=
  forallb (fun c => (0 <=? c) && (c <? 256)) s.

End JsString.
Import JsString.

(** ** Buffers and base64

    [Buffer.from(s, 'binary')] and [buf.toString('base64')] are Node
    built-ins; they are modelled after their documentation: 'binary' is
    the latin1 encoding, 'base64' is the RFC 4648 alphabet with padding. *)

Module Buffer.

Definition bytes := list Z.

(** [Buffer.from(s, 'binary')]: one byte per code unit, high bits dropped. *)
Definition from_binary (s : jsstring) : bytes :=
  map (fun c => c mod 256) s.

(** The character of a 6-bit group. *)
Definition sextet_char (i : Z) : Z :=
  if i <? 26 then i + 65            (* A-Z *)
  else if i <? 52 then i + 71       (* a-z *)
  else if i <? 62 then i - 4        (* 0-9 *)
  else if i =? 62 then 43           (* + *)
  else 47.                          (* / *)

Definition pad : Z := 61.           (* = *)

(** [buf.toString('base64')]. *)
Fixpoint toString_base64 (b : bytes) : jsstring :=
  match b with
  | [] => []
  | [x] =>
      [sextet_char (x / 4); sextet_char ((x mod 4) * 16); pad; pad]
  | [x; y] =>
      [sextet_char (x / 4); sextet_char ((x mod 4) * 16 + y / 16);
       sextet_char ((y mod 16) * 4); pad]
  | x :: y :: z :: rest =>
      sextet_char (x / 4) :: sextet_char ((x mod 4) * 16 + y / 16)
      :: sextet_char ((y mod 16) * 4 + z / 64) :: sextet_char (z mod 64)
      :: toString_base64 rest
  end.

(** The decoder a consumer of the chart values applies (RFC 4648,
    padding required). *)
Definition char_sextet (c : Z) : option Z :=
  if (65 <=? c) && (c <=? 90) then Some (c - 65)
  else if (97 <=? c) && (c <=? 122) then Some (c - 71)
  else if (48 <=? c) && (c <=? 57) then Some (c + 4)
  else if c =? 43 then Some 62
  else if c =? 47 then Some 63
  else None.

Fixpoint base64_decode (s : jsstring) : option bytes :=
  match s with
  | [] => Some []
  | c1 :: c2 :: c3 :: c4 :: rest =>
      match char_sextet c1, char_sextet c2 with
      | Some i1, Some i2 =>
          let b1 := i1 * 4 + i2 / 16 in
          if c3 =? pad then
            match rest with
            | [] => if c4 =? pad then Some [b1] else None
            | _ :: _ => None
            end
          else
            match char_sextet c3 with
            | Some i3 =>
                let b2 := (i2 mod 16) * 16 + i3 / 4 in
                if c4 =? pad then
                  match rest with
                  | [] => Some [b1; b2]
                  | _ :: _ => None
                  end
                else
                  match char_sextet c4, base64_decode rest with
                  | Some i4, Some tl =>
                      Some (b1 :: b2 :: (i3 mod 4) * 64 + i4 :: tl)
                  | _, _ => None
                  end
            | None => None
            end
      | _, _ => None
      end
  | _ => None
  end.

End Buffer.

(** ** JSON values and [JSON.parse]

    [JSON.parse] is an ECMAScript built-in; the parser below follows the
    JSON grammar of ECMA-404.  A number keeps its exact decimal value
    [(-1)^negative * digits * 10^exponent]; only whether it rounds to zero
    as a double is ever observed (by truthiness). *)

Module Json.

#[warnings="-register-all"]
Inductive json : Type :=
| JNull
| JBool (b : bool)
| JNumber (negative : bool) (digits : Z) (exponent : Z)
| JString (s : jsstring)
| JArray (elements : list json)
| JObject (members : list (jsstring * json)).

(** Outcome of a parsing function: a value and the unread input, a
    syntax error, or recursion budget exhausted. *)
Inductive parsed (A : Type) : Type :=
| Ok (a : A) (rest : jsstring)
| Bad
| OutOfFuel.
Arguments Ok {A} a rest.
Arguments Bad {A}.
Arguments OutOfFuel {A}.

Definition pmap {A B} (f : A -> B) (p : parsed A) : parsed B :=
  match p with
  | Ok a rest => Ok (f a) rest
  | Bad => Bad
  | OutOfFuel => OutOfFuel
  end.

Definition ch (a : ascii) : Z := unit_of_ascii a.

(** The double quote. *)
Definition quote : Z := 34.

Definition is_ws (c : Z) : bool :=
  (c =? 32) || (c =? 9) || (c =? 10) || (c =? 13).

Fixpoint skip_ws (s : jsstring) : jsstring :=
  match s with
  | c :: r => if is_ws c then skip_ws r else s
  | [] => []
  end.

(** *** Strings *)

Definition hex_digit (c : Z) : option Z :=
  if (48 <=? c) && (c <=? 57) then Some (c - 48)
  else if (65 <=? c) && (c <=? 70) then Some (c - 55)
  else if (97 <=? c) && (c <=? 102) then Some (c - 87)
  else None.

Definition simple_escape (c : Z) : option Z :=
  if c =? quote then Some 34
  else if c =? ch "\" then Some 92
  else if c =? ch "/" then Some 47
  else if c =? ch "b" then Some 8
  else if c =? ch "f" then Some 12
  else if c =? ch "n" then Some 10
  else if c =? ch "r" then Some 13
  else if c =? ch "t" then Some 9
  else None.

(** The characters of a string literal, after its opening quote. *)
Fixpoint string_body (s : jsstring) : parsed jsstring :=
  match s with
  | [] => Bad
  | c :: r =>
      if c =? quote then Ok [] r
      else if c =? ch "\" then
        match r with
        | [] => Bad
        | e :: r1 =>
            if e =? ch "u" then
              match r1 with
              | h1 :: h2 :: h3 :: h4 :: r2 =>
                  match hex_digit h1, hex_digit h2,
                        hex_digit h3, hex_digit h4 with
                  | Some d1, Some d2, Some d3, Some d4 =>
                      pmap (cons (((d1 * 16 + d2) * 16 + d3) * 16 + d4))
                           (string_body r2)
                  | _, _, _, _ => Bad
                  end
              | _ => Bad
              end
            else
              match simple_escape e with
              | Some u => pmap (cons u) (string_body r1)
              | None => Bad
              end
        end
      else if c <? 32 then Bad
      else pmap (cons c) (string_body r)
  end.

(** *** Numbers *)

Definition is_digit (c : Z) : bool := (48 <=? c) && (c <=? 57).

(** The leading run of decimal digits, as digit values. *)
Fixpoint digits_of (s : jsstring) : list Z * jsstring :=
  match s with
  | c :: r =>
      if is_digit c
      then let (ds, rest) := digits_of r in (c - 48 :: ds, rest)
      else ([], s)
  | [] => ([], [])
  end.

Definition decimal (ds : list Z) : Z :=
  fold_left (fun acc d => acc * 10 + d) ds 0.

Definition number (s : jsstring) : parsed json :=
  let (negative, s1) :=
    match s with
    | c :: r => if c =? ch "-" then (true, r) else (false, s)
    | [] => (false, s)
    end in
  (* int: a single 0, or a digit 1-9 followed by digits *)
  let int_part :=
    match s1 with
    | c :: r =>
        if c =? ch "0" then Some ([0], r)
        else if is_digit c then Some (digits_of s1)
        else None
    | [] => None
    end in
  match int_part with
  | None => Bad
  | Some (ip, s2) =>
      (* frac: a point followed by at least one digit *)
      let frac :=
        match s2 with
        | c :: r =>
            if c =? ch "."
            then match digits_of r with
                 | ([], _) => None
                 | (fp, s3) => Some (fp, s3)
                 end
            else Some ([], s2)
        | [] => Some ([], s2)
        end in
      match frac with
      | None => Bad
      | Some (fp, s3) =>
          (* exp: e or E, an optional sign, at least one digit *)
          let exp :=
            match s3 with
            | c :: r =>
                if (c =? ch "e") || (c =? ch "E") then
                  let (minus, r1) :=
                    match r with
                    | sg :: r' =>
                        if sg =? ch "-" then (true, r')
                        else if sg =? ch "+" then (false, r')
                        else (false, r)
                    | [] => (false, r)
                    end in
                  match digits_of r1 with
                  | ([], _) => None
                  | (ep, s4) =>
                      Some ((if minus then - decimal ep else decimal ep), s4)
                  end
                else Some (0, s3)
            | [] => Some (0, s3)
            end in
          match exp with
          | None => Bad
          | Some (e, s4) =>
              Ok (JNumber negative (decimal (ip ++ fp))
                          (e - Z.of_nat (List.length fp))) s4
          end
      end
  end.

(** *** Literals *)

Fixpoint strip_prefix (p s : jsstring) : option jsstring :=
  match p, s with
  | [], _ => Some s
  | c :: p', d :: s' => if c =? d then strip_prefix p' s' else None
  | _ :: _, [] => None
  end.

Definition literal (s : jsstring) : parsed json :=
  match strip_prefix (str "true") s with
  | Some r => Ok (JBool true) r
  | None =>
      match strip_prefix (str "false") s with
      | Some r => Ok (JBool false) r
      | None =>
          match strip_prefix (str "null") s with
          | Some r => Ok JNull r
          | None => Bad
          end
      end
  end.

(** *** Values, arrays and objects

    One budget [fuel] bounds the recursion; [JSON_parse] starts with
    enough of it for the whole text (lemma [JSON_parse_fuel] below). *)

Fixpoint value (fuel : nat) (s : jsstring) : parsed json :=
  match fuel with
  | O => OutOfFuel
  | S fuel' =>
      match skip_ws s with
      | [] => Bad
      | c :: r =>
          if c =? ch "[" then
            match skip_ws r with
            | d :: r' =>
                if d =? ch "]" then Ok (JArray []) r'
                else pmap JArray (elements fuel' (d :: r'))
            | [] => Bad
            end
          else if c =? ch "{" then
            match skip_ws r with
            | d :: r' =>
                if d =? ch "}" then Ok (JObject []) r'
                else pmap JObject (members fuel' (d :: r'))
            | [] => Bad
            end
          else if c =? quote then pmap JString (string_body r)
          else if (c =? ch "-") || is_digit c then number (c :: r)
          else literal (c :: r)
      end
  end

(** [elements]: value (ws , value)* ws ] *)
with elements (fuel : nat) (s : jsstring) : parsed (list json) :=
  match fuel with
  | O => OutOfFuel
  | S fuel' =>
      match value fuel' s with
      | Ok v r =>
          match skip_ws r with
          | c :: r' =>
              if c =? ch "," then pmap (cons v) (elements fuel' r')
              else if c =? ch "]" then Ok [v] r'
              else Bad
          | [] => Bad
          end
      | Bad => Bad
      | OutOfFuel => OutOfFuel
      end
  end

(** [members]: ws string ws : value (ws , member)* ws } *)
with members (fuel : nat) (s : jsstring) : parsed (list (jsstring * json)) :=
  match fuel with
  | O => OutOfFuel
  | S fuel' =>
      match skip_ws s with
      | q :: r0 =>
          if q =? quote then
            match string_body r0 with
            | Ok key r1 =>
                match skip_ws r1 with
                | colon :: r2 =>
                    if colon =? ch ":" then
                      match value fuel' r2 with
                      | Ok v r3 =>
                          match skip_ws r3 with
                          | c :: r4 =>
                              if c =? ch ","
                              then pmap (cons (key, v)) (members fuel' r4)
                              else if c =? ch "}" then Ok [(key, v)] r4
                              else Bad
                          | [] => Bad
                          end
                      | Bad => Bad
                      | OutOfFuel => OutOfFuel
                      end
                    else Bad
                | [] => Bad
                end
            | Bad => Bad
            | OutOfFuel => OutOfFuel
            end
          else Bad
      | [] => Bad
      end
  end.

(** [JSON.parse(text)]: [None] stands for the SyntaxError it throws. *)
Definition JSON_parse (text : jsstring) : option json :=
  match value (2 * List.length text + 1) text with
  | Ok v rest =>
      match skip_ws rest with
      | [] => Some v
      | _ :: _ => None
      end
  | Bad => None
  | OutOfFuel => None
  end.

(** *** Reading values *)

(** A value as a variable or field holds it: [None] is [undefined]. *)
Definition value_or_undefined := option json.

(** Own property [key] of a parsed object: the last member wins. *)
Fixpoint own_property (key : jsstring) (ms : list (jsstring * json))
  : value_or_undefined :=
  match ms with
  | [] => None
  | (k, v) :: ms' =>
      match own_property key ms' with
      | Some v' => Some v'
      | None => if JsString.eqb k key then Some v else None
      end
  end.

(** Does the decimal [digits * 10^exponent] round to zero as a double?
    Exactly the values of magnitude at most 2^-1075 do. *)
Definition rounds_to_zero (digits exponent : Z) : bool :=
  if digits =? 0 then true
  else if 0 <=? exponent then false
  else digits * 2 ^ 1075 <=? 10 ^ (- exponent).

(** ToBoolean. *)
Definition truthy (v : value_or_undefined) : bool :=
  match v with
  | None => false
  | Some JNull => false
  | Some (JBool b) => b
  | Some (JNumber _ m e) => negb (rounds_to_zero m e)
  | Some (JString s) => match s with [] => false | _ :: _ => true end
  | Some (JArray _) => true
  | Some (JObject _) => true
  end.

(** [v ?? d]: [d] replaces [undefined] and [null] only. *)
Definition nullish_coalesce (v : value_or_undefined) (d : json) : json :=
  match v with
  | None => d
  | Some JNull => d
  | Some j => j
  end.

End Json.
Import Json.
(** ** The data model of [index.ts] *)

(** [interface BootstrapRepository] (lines 5-37).  The three credential
    fields are declared [string | undefined]; [getSshKeyFromSecret] stores
    into them whatever the parsed secret holds, without a check, so they
    are modelled as arbitrary values. *)
Module Repo.
Record BootstrapRepository : Type := {
  URL : jsstring;
  branch : jsstring;
  path : jsstring;
  secretName : option jsstring;
  privateKey : value_or_undefined;
  publicKey : value_or_undefined;
  knownHosts : value_or_undefined
}.

Definition set_privateKey (v : value_or_undefined) (r : BootstrapRepository) :=
  {| URL := URL r; branch := branch r; path := path r;
     secretName := secretName r;
     privateKey := v; publicKey := publicKey r; knownHosts := knownHosts r |}.

Definition set_publicKey (v : value_or_undefined) (r : BootstrapRepository) :=
  {| URL := URL r; branch := branch r; path := path r;
     secretName := secretName r;
     privateKey := privateKey r; publicKey := v; knownHosts := knownHosts r |}.

Definition set_knownHosts (v : value_or_undefined) (r : BootstrapRepository) :=
  {| URL := URL r; branch := branch r; path := path r;
     secretName := secretName r;
     privateKey := privateKey r; publicKey := publicKey r; knownHosts := v |}.
End Repo.

(** The options object handed to [cluster.addHelmChart]. *)
Module Chart.
(** One entry of [values.applications] (lines 111-118). *)
Record Application : Type := {
  applicationName : jsstring;
  gitRepository : jsstring;
  privateKey : jsstring;
  knownHosts : jsstring;
  path : jsstring;
  branch : jsstring
}.

Record Values : Type := { applications : list Application }.

Record HelmChartOptions : Type := {
  chart : jsstring;
  repository : jsstring;
  version : jsstring;
  namespace : jsstring;
  values : option Values
}.

(** A call [addHelmChart(id, options)]. *)
Record Request : Type := { id : jsstring; options : HelmChartOptions }.
End Chart.

(** ** Collaborators *)

(** What the Secrets Manager client passes to the callback of
    [getSecretValue]: [(err, null)] or [(null, data)]. *)
Module Aws.
Record AWSError : Type := { code : jsstring; message : jsstring }.

(** A property that [in] can tell from a missing one even when it holds
    [undefined]. *)
Inductive property (A : Type) : Type :=
| Missing
| Present (v : option A).
Arguments Missing {A}.
Arguments Present {A} v.

(** [SecretBinary] is a Buffer, Uint8Array, Blob or string; the code
    only calls [toString()] on it. *)
Record Blob : Type := { toString : jsstring }.

Record GetSecretValueResponse : Type := {
  SecretString : property jsstring;
  SecretBinary : option Blob
}.

Definition reply : Type := (AWSError + GetSecretValueResponse)%type.

(** When the client runs the callback: inside the [getSecretValue] call,
    or in a later turn of the event loop, after the calling code has run
    to completion.  Every answer of the service travels over the network
    and is [Deferred]. *)
Inductive delivery : Type := Immediate | Deferred.
End Aws.

(** Values that the code throws or sees thrown. *)
Inductive thrown : Type :=
| SyntaxError                          (* JSON.parse on malformed text *)
| TypeError_read_of_null               (* property read on null *)
| TypeError_not_a_string (v : json)    (* Buffer.from on a non-string *)
| Thrown_AWSError (err : Aws.AWSError) (* throw err, lines 55-63 *)
| Thrown_string (s : jsstring)         (* throw "...", line 102 *)
| Thrown_Error (name message : jsstring). (* an error of the deployment target *)

(** How a statement completes. *)
Inductive completion (A : Type) : Type :=
| Normal (a : A)
| Throw (e : thrown).
Arguments Normal {A} a.
Arguments Throw {A} e.

(** [ClusterInfo]: the cluster's name and its [addHelmChart] method, which
    may throw depending on the charts it was given before. *)
Record Cluster : Type := {
  clusterName : jsstring;
  addHelmChart_throws : list Chart.Request -> Chart.Request -> option thrown
}.

Record ClusterInfo : Type := { cluster : Cluster }.

(** The global SDK: what [new SecretsManager().getSecretValue] answers for
    a [SecretId], given the ids requested before. *)
Record Sdk : Type := {
  secretsManager : list jsstring -> jsstring -> Aws.delivery * Aws.reply
}.

(** ** Mutable state *)

(** One line of [console.error]: the literal part of the template and the
    error interpolated after it. *)
Record LogLine : Type := { text : jsstring; interpolated : thrown }.

Record World : Type := {
  (** the repository object, shared by the add-on and whoever built it *)
  bootstrapRepository : Repo.BootstrapRepository;
  (** calls of [cluster.addHelmChart], oldest first *)
  submitted : list Chart.Request;
  (** lines written by [console.error], oldest first *)
  console : list LogLine;
  (** ids passed to [getSecretValue], oldest first *)
  requested : list jsstring;
  (** answers whose callback has not run yet, oldest first *)
  pending : list Aws.reply
}.

Definition with_repository (f : Repo.BootstrapRepository -> Repo.BootstrapRepository)
  (w : World) : World :=
  {| bootstrapRepository := f (bootstrapRepository w);
     submitted := submitted w; console := console w;
     requested := requested w; pending := pending w |}.

Definition with_submitted (r : Chart.Request) (w : World) : World :=
  {| bootstrapRepository := bootstrapRepository w;
     submitted := submitted w ++ [r]; console := console w;
     requested := requested w; pending := pending w |}.

Definition with_console (l : LogLine) (w : World) : World :=
  {| bootstrapRepository := bootstrapRepository w;
     submitted := submitted w; console := console w ++ [l];
     requested := requested w; pending := pending w |}.

Definition with_requested (name : jsstring) (w : World) : World :=
  {| bootstrapRepository := bootstrapRepository w;
     submitted := submitted w; console := console w;
     requested := requested w ++ [name]; pending := pending w |}.

Definition with_pending (r : Aws.reply) (w : World) : World :=
  {| bootstrapRepository := bootstrapRepository w;
     submitted := submitted w; console := console w;
     requested := requested w; pending := pending w ++ [r] |}.

(** ** Statements: state passing with exceptions *)

Definition M (A : Type) : Type := World -> World * completion A.

Definition ret {A} (a : A) : M A := fun w => (w, Normal a).

Definition bind {A B} (c : M A) (k : A -> M B) : M B :=
  fun w =>
    match c w with
    | (w', Normal a) => k a w'
    | (w', Throw e) => (w', Throw e)
    end.

Definition throw {A} (e : thrown) : M A := fun w => (w, Throw e).

(** [try { body } catch (err) { handler(err) }] *)
Definition try_catch {A} (body : M A) (handler : thrown -> M A) : M A :=
  fun w =>
    match body w with
    | (w', Normal a) => (w', Normal a)
    | (w', Throw e) => handler e w'
    end.

Definition read {A} (f : World -> A) : M A := fun w => (w, Normal (f w)).

Definition update (f : World -> World) : M unit := fun w => (f w, Normal tt).

Definition lift {A} (c : completion A) : M A := fun w => (w, c).

Declare Scope js_scope.
Delimit Scope js_scope with js.
Notation "x <- c ;; k" := (bind c (fun x => k))
  (at level 61, c at next level, right associativity) : js_scope.
Notation "c ;; k" := (bind c (fun _ => k))
  (at level 61, right associativity) : js_scope.
Local Open Scope js_scope.

(** [console.error(`text${err}`)] *)
Definition console_error (text : jsstring) (err : thrown) : M unit :=
  update (with_console {| text := text; interpolated := err |}).

(** [clusterInfo.cluster.addHelmChart(id, options)] *)
Definition addHelmChart (clusterInfo : ClusterInfo) (id : jsstring)
  (options : Chart.HelmChartOptions) : M unit :=
  fun w =>
    let request := {| Chart.id := id; Chart.options := options |} in
    let w' := with_submitted request w in
    match addHelmChart_throws (cluster clusterInfo) (submitted w) request with
    | Some e => (w', Throw e)
    | None => (w', Normal tt)
    end.

(** [client.getSecretValue({ SecretId }, callback)].  The callback closes
    over the local variable [secret]; it is given the variable's value and
    returns the new one. *)
Definition getSecretValue (sdk : Sdk) (SecretId : jsstring)
  (callback : Aws.reply -> jsstring -> completion jsstring)
  (secret : jsstring) : M jsstring :=
  fun w =>
    let w' := with_requested SecretId w in
    match secretsManager sdk (requested w) SecretId with
    | (Aws.Immediate, answer) => (w', callback answer secret)
    | (Aws.Deferred, answer) => (with_pending answer w', Normal secret)
    end.

(** ** [class WeaveGitOpsAddOn] *)

Record WeaveGitOpsAddOn : Type := { namespace : jsstring }.

(** Lines 44-47.  The repository argument is the shared object of the
    [World]. *)
Definition constructor (namespace : option jsstring) : WeaveGitOpsAddOn :=
  {| namespace := match namespace with
                  | Some n => n
                  | None => str "wego-system"
                  end |}.

(** The callback of lines 52-72. *)
Definition getSecretValue_callback (answer : Aws.reply) (secret : jsstring)
  : completion jsstring :=
  match answer with
  | inl err =>
      if JsString.eqb (Aws.code err) (str "DecryptionFailureException")
      then Throw (Thrown_AWSError err)
      else if JsString.eqb (Aws.code err) (str "InternalServiceErrorException")
      then Throw (Thrown_AWSError err)
      else if JsString.eqb (Aws.code err) (str "InvalidParameterException")
      then Throw (Thrown_AWSError err)
      else if JsString.eqb (Aws.code err) (str "InvalidRequestException")
      then Throw (Thrown_AWSError err)
      else if JsString.eqb (Aws.code err) (str "ResourceNotFoundException")
      then Throw (Thrown_AWSError err)
      else Normal secret
  | inr data =>
      match Aws.SecretString data with
      | Aws.Present v =>
          Normal (match v with Some s => s | None => [] end)
      | Aws.Missing =>
          Normal (match Aws.SecretBinary data with
                  | Some blob => Aws.toString blob
                  | None => []
                  end)
      end
  end.

(** [secretObject.key] *)
Definition member (secretObject : json) (key : jsstring)
  : completion value_or_undefined :=
  match secretObject with
  | JNull => Throw TypeError_read_of_null
  | JObject ms => Normal (own_property key ms)
  | _ => Normal None
  end.

(** Lines 73-76: what follows the call of [getSecretValue]. *)
Definition parse_and_store (secret : jsstring) : M unit :=
  match JSON_parse secret with
  | None => throw SyntaxError
  | Some secretObject =>
      private_key <- lift (member secretObject (str "private_key")) ;;
      update (with_repository (Repo.set_privateKey private_key)) ;;
      public_key <- lift (member secretObject (str "public_key")) ;;
      update (with_repository (Repo.set_publicKey public_key)) ;;
      known_hosts <- lift (member secretObject (str "known_hosts")) ;;
      update (with_repository (Repo.set_knownHosts known_hosts))
  end.

(** Lines 49-77. *)
Definition getSshKeyFromSecret (sdk : Sdk) (secretName : jsstring) : M unit :=
  secret <- getSecretValue sdk secretName getSecretValue_callback [] ;;
  parse_and_store secret.

(** Lines 79-81. *)
Definition base64EncodeContents (contents : jsstring) : jsstring :=
  Buffer.toString_base64 (Buffer.from_binary contents).

(** [this.base64EncodeContents(field ?? empty)] at lines 114-115, where the
    field holds a run-time value.  [Buffer.from] throws a TypeError for a
    boolean or a number; arrays and objects are truthy and never get past
    line 101 (lemma [encode_field_argument]). *)
Definition encode_field (field : value_or_undefined) : M jsstring :=
  match nullish_coalesce field (JString []) with
  | JString contents => ret (base64EncodeContents contents)
  | v => throw (TypeError_not_a_string v)
  end.

Definition core_chart (this : WeaveGitOpsAddOn) : Chart.HelmChartOptions :=
  {| Chart.chart := str "wego-core";
     Chart.repository := str "https://murillodigital.github.io/wego-helm";
     Chart.version := str "0.0.5";
     Chart.namespace := namespace this;
     Chart.values := None |}.

(** The literal parts of the two log templates (lines 92 and 123). *)
Definition deploy_failed : jsstring :=
  str "Unable to complete Weave GitOps AddOn Core deployment - aborting with error ".

Definition postDeploy_failed : jsstring :=
  str "Unable to complete Weave GitOps AddOn Bootstrapping - aborting with error ".

Definition deploy_body (this : WeaveGitOpsAddOn) (clusterInfo : ClusterInfo)
  : M unit :=
  addHelmChart clusterInfo (str "weave-gitops-core") (core_chart this).

(** Lines 83-94. *)
Definition deploy (this : WeaveGitOpsAddOn) (clusterInfo : ClusterInfo)
  : M unit :=
  try_catch (deploy_body this clusterInfo) (console_error deploy_failed).

Definition missing_details : thrown :=
  Thrown_string
    (str "Required details for bootstrap repository access are missing, aborting").

(** Lines 98-121: the [try] block of [postDeploy]. *)
Definition postDeploy_body (sdk : Sdk) (this : WeaveGitOpsAddOn)
  (clusterInfo : ClusterInfo) : M unit :=
  secretName <- read (fun w => Repo.secretName (bootstrapRepository w)) ;;
  match secretName with
  | Some (c :: name) => getSshKeyFromSecret sdk (c :: name)
  | Some [] | None => ret tt   (* the empty string and undefined are falsy *)
  end ;;
  repo <- read bootstrapRepository ;;
  if truthy (Repo.privateKey repo) || truthy (Repo.knownHosts repo)
  then throw missing_details
  else
    privateKey <- encode_field (Repo.privateKey repo) ;;
    knownHosts <- encode_field (Repo.knownHosts repo) ;;
    addHelmChart clusterInfo (str "weave-gitops-application")
      {| Chart.chart := str "wego-app";
         Chart.repository := str "https://murillodigital.github.io/wego-helm";
         Chart.version := str "0.0.1";
         Chart.namespace := namespace this;
         Chart.values := Some {| Chart.applications := [
           {| Chart.applicationName := clusterName (cluster clusterInfo);
              Chart.gitRepository := Repo.URL repo;
              Chart.privateKey := privateKey;
              Chart.knownHosts := knownHosts;
              Chart.path := Repo.path repo;
              Chart.branch := Repo.branch repo |} ] |} |}.

(** Lines 96-125.  [teams] is not used. *)
Definition postDeploy {Team : Type} (sdk : Sdk) (this : WeaveGitOpsAddOn)
  (clusterInfo : ClusterInfo) (teams : list Team) : M unit :=
  try_catch (postDeploy_body sdk this clusterInfo)
    (console_error postDeploy_failed).

(** ** After the hooks: the event loop

    The callbacks still [pending] run once the calling code has returned.
    Each sees [secret] as line 51 left it; what it throws is caught by
    nobody. *)
Definition uncaught (w : World) : list thrown :=
  flat_map (fun answer =>
              match getSecretValue_callback answer [] with
              | Throw e => [e]
              | Normal _ => []
              end)
           (pending w).

(** ** Notions used in the statements *)

Definition outcome {A} (r : World * completion A) : completion A := snd r.
Definition after {A} (r : World * completion A) : World := fst r.

(** The requests a run added to [submitted], and the lines it logged. *)
Definition new_requests (before after : World) : list Chart.Request :=
  skipn (List.length (submitted before)) (submitted after).

Definition new_lines (before after : World) : list LogLine :=
  skipn (List.length (console before)) (console after).

Definition is_byte (x : Z) : Prop := 0 <= x < 256.

(** A credential field as its declared type has it: a string or nothing. *)
Definition string_field (s : option jsstring) : value_or_undefined :=
  option_map JString s.

(** The Secrets Manager service as the SDK reaches it: whatever it
    answers, the callback runs in a later turn. *)
Definition service (answer : list jsstring -> jsstring -> Aws.reply) : Sdk :=
  {| secretsManager := fun earlier SecretId =>
                         (Aws.Deferred, answer earlier SecretId) |}.

(** A client that runs its callback before [getSecretValue] returns
    (a stub standing in for the SDK). *)
Definition synchronous_stub (answer : Aws.reply) : Sdk :=
  {| secretsManager := fun _ _ => (Aws.Immediate, answer) |}.

Definition secret_string (payload : jsstring) : Aws.reply :=
  inr {| Aws.SecretString := Aws.Present (Some payload);
         Aws.SecretBinary := None |}.

(** The error codes the callback rethrows (lines 54-63). *)
Definition store_error_codes : list jsstring :=
  [str "DecryptionFailureException"; str "InternalServiceErrorException";
   str "InvalidParameterException"; str "InvalidRequestException";
   str "ResourceNotFoundException"].

(** The request of lines 104-121 for given field values. *)
Definition bootstrap_request (this : WeaveGitOpsAddOn) (clusterInfo : ClusterInfo)
  (repo : Repo.BootstrapRepository) (privateKey knownHosts : jsstring)
  : Chart.Request :=
  {| Chart.id := str "weave-gitops-application";
     Chart.options :=
       {| Chart.chart := str "wego-app";
          Chart.repository := str "https://murillodigital.github.io/wego-helm";
          Chart.version := str "0.0.1";
          Chart.namespace := namespace this;
          Chart.values := Some {| Chart.applications := [
            {| Chart.applicationName := clusterName (cluster clusterInfo);
               Chart.gitRepository := Repo.URL repo;
               Chart.privateKey := privateKey;
               Chart.knownHosts := knownHosts;
               Chart.path := Repo.path repo;
               Chart.branch := Repo.branch repo |} ] |} |} |}.

(** [postDeploy]'s [try] block in two steps: lines 98-100, then lines
    101-121. *)
Definition resolve_step (sdk : Sdk) : M unit :=
  (secretName <- read (fun w => Repo.secretName (bootstrapRepository w)) ;;
   match secretName with
   | Some (c :: name) => getSshKeyFromSecret sdk (c :: name)
   | Some [] | None => ret tt
   end)%js.

Definition submit_step (this : WeaveGitOpsAddOn) (clusterInfo : ClusterInfo)
  : M unit :=
  (repo <- read bootstrapRepository ;;
   if truthy (Repo.privateKey repo) || truthy (Repo.knownHosts repo)
   then throw missing_details
   else
     privateKey <- encode_field (Repo.privateKey repo) ;;
     knownHosts <- encode_field (Repo.knownHosts repo) ;;
     addHelmChart clusterInfo (Chart.id (bootstrap_request this clusterInfo repo privateKey knownHosts))
       (Chart.options (bootstrap_request this clusterInfo repo privateKey knownHosts)))%js.

(** The payload named by the specification's first testable property:
    an object with the members private_key: A, public_key: B and
    known_hosts: C. *)
Definition sample_payload : jsstring :=
  str "{" ++ quoted "private_key" ++ str ":" ++ quoted "A" ++ str ","
  ++ quoted "public_key" ++ str ":" ++ quoted "B" ++ str ","
  ++ quoted "known_hosts" ++ str ":" ++ quoted "C" ++ str "}".
(** ** Sample inputs

    Concrete collaborators and repositories on which the statements below
    are evaluated. *)

(** The deployment target refuses every chart. *)
Definition failing_cluster : ClusterInfo :=
  {| cluster := {| clusterName := str "blueprint";
                   addHelmChart_throws := fun _ _ =>
                     Some (Thrown_Error (str "Error") (str "install failed")) |} |}.

Definition accepting_cluster : ClusterInfo :=
  {| cluster := {| clusterName := str "blueprint";
                   addHelmChart_throws := fun _ _ => None |} |}.

Definition repository (secretName : option jsstring)
  (privateKey publicKey knownHosts : option jsstring) : Repo.BootstrapRepository :=
  {| Repo.URL := str "git@github.com:example/bootstrap.git";
     Repo.branch := str "main";
     Repo.path := str "./";
     Repo.secretName := secretName;
     Repo.privateKey := string_field privateKey;
     Repo.publicKey := string_field publicKey;
     Repo.knownHosts := string_field knownHosts |}.

Definition initial (repo : Repo.BootstrapRepository) : World :=
  {| bootstrapRepository := repo; submitted := []; console := [];
     requested := []; pending := [] |}.

(** A secret whose text is cut short after its first member. *)
Definition truncated_payload : jsstring :=
  str "{" ++ quoted "private_key" ++ str ":" ++ quoted "A" ++ str ",".

(** ** Further notions *)

(** The ids [postDeploy] asks the store for: line 98 lets only a
    non-empty [secretName] through. *)
Definition store_requests (secretName : option jsstring) : list jsstring :=
  match secretName with
  | Some (c :: name) => [c :: name]
  | Some [] | None => []
  end.

(** The request of lines 85-90. *)
Definition core_request (this : WeaveGitOpsAddOn) : Chart.Request :=
  {| Chart.id := str "weave-gitops-core";
     Chart.options :=
       {| Chart.chart := str "wego-core";
          Chart.repository := str "https://murillodigital.github.io/wego-helm";
          Chart.version := str "0.0.5";
          Chart.namespace := namespace this;
          Chart.values := None |} |}.

(** A character of the base64 alphabet, or the padding sign. *)
Definition is_base64_char (c : Z) : bool :=
  match Buffer.char_sextet c with
  | Some _ => true
  | None => c =? Buffer.pad
  end.



(** A client delivering [answer] one way or the other. *)
Definition client (when : Aws.delivery) (answer : Aws.reply) : Sdk :=
  {| secretsManager := fun _ _ => (when, answer) |}.

Definition access_denied : Aws.AWSError :=
  {| Aws.code := str "AccessDeniedException";
     Aws.message := str "User is not authorized to perform secretsmanager:GetSecretValue" |}.


(** ** Base64: decoding inverts encoding *)

Ltac split_ifs :=
  repeat match goal with
         | |- context [if ?b then _ else _] => destruct b eqn:?
         end.

Lemma char_sextet_char (i : Z) :
  0 <= i < 64 -> Buffer.char_sextet (Buffer.sextet_char i) = Some i.
Proof.
  intros Hi. unfold Buffer.sextet_char. split_ifs;
    unfold Buffer.char_sextet; split_ifs; try (f_equal; lia); lia.
Qed.

Lemma sextet_char_not_pad (i : Z) :
  0 <= i < 64 -> (Buffer.sextet_char i =? Buffer.pad) = false.
Proof.
  intros Hi. unfold Buffer.sextet_char, Buffer.pad.
  repeat match goal with
         | |- context [if ?b then _ else _] => destruct b eqn:?
         end; lia.
Qed.

Ltac dm_lia := Z.div_mod_to_equations; lia.

Lemma decode_group3 (x y z : Z) (rest : list Z) :
  is_byte x -> is_byte y -> is_byte z ->
  Buffer.base64_decode (Buffer.toString_base64 (x :: y :: z :: rest)) =
  match Buffer.base64_decode (Buffer.toString_base64 rest) with
  | Some tl => Some (x :: y :: z :: tl)
  | None => None
  end.
Proof.
  unfold is_byte. intros Hx Hy Hz.
  change (Buffer.toString_base64 (x :: y :: z :: rest))
    with (Buffer.sextet_char (x / 4)
          :: Buffer.sextet_char ((x mod 4) * 16 + y / 16)
          :: Buffer.sextet_char ((y mod 16) * 4 + z / 64)
          :: Buffer.sextet_char (z mod 64)
          :: Buffer.toString_base64 rest).
  cbn [Buffer.base64_decode].
  rewrite !char_sextet_char by dm_lia.
  rewrite !sextet_char_not_pad by dm_lia.
  destruct (Buffer.base64_decode (Buffer.toString_base64 rest)); [|reflexivity].
  do 2 f_equal; [dm_lia|]. f_equal; [dm_lia|]. f_equal. dm_lia.
Qed.

Lemma decode_toString_base64 (b : Buffer.bytes) :
  Forall is_byte b ->
  Buffer.base64_decode (Buffer.toString_base64 b) = Some b.
Proof.
  remember (List.length b) as n eqn:Hn.
  revert b Hn. induction n as [n IH] using (well_founded_induction Nat.lt_wf_0).
  intros b Hn Hb.
  destruct b as [|x [|y [|z rest]]].
  - reflexivity.
  - inversion Hb as [|? ? Hx _]; subst. unfold is_byte in Hx.
    cbn [Buffer.toString_base64 Buffer.base64_decode].
    rewrite !char_sextet_char by dm_lia.
    rewrite Z.eqb_refl. do 2 f_equal. dm_lia.
  - inversion Hb as [|? ? Hx Hb']; subst.
    inversion Hb' as [|? ? Hy _]; subst. unfold is_byte in Hx, Hy.
    cbn [Buffer.toString_base64 Buffer.base64_decode].
    rewrite !char_sextet_char by dm_lia.
    rewrite Z.eqb_refl.
    rewrite sextet_char_not_pad by dm_lia.
    do 2 f_equal; [dm_lia|]. f_equal. dm_lia.
  - inversion Hb as [|? ? Hx Hb1]; subst.
    inversion Hb1 as [|? ? Hy Hb2]; subst.
    inversion Hb2 as [|? ? Hz Hb3]; subst.
    rewrite decode_group3 by assumption.
    rewrite (IH (List.length rest)); [reflexivity| simpl; lia | reflexivity | assumption].
Qed.

(** ** [JSON.parse]: the recursion budget is never exhausted *)

Ltac break_match :=
  match goal with
  | |- context [match ?x with _ => _ end] => destruct x eqn:?
  | H : context [match ?x with _ => _ end] |- _ => destruct x eqn:?
  end.

Lemma skip_ws_length (s : jsstring) :
  (List.length (skip_ws s) <= List.length s)%nat.
Proof.
  induction s as [|c s IH]; simpl; [lia|].
  destruct (is_ws c); simpl; lia.
Qed.

Lemma skip_ws_cons (s : jsstring) (c : Z) (r : jsstring) :
  skip_ws s = c :: r -> (List.length r < List.length s)%nat.
Proof.
  intros H. pose proof (skip_ws_length s) as Hle. rewrite H in Hle.
  simpl in Hle. lia.
Qed.

Lemma pmap_Ok {A B} (f : A -> B) (p : parsed A) (b : B) (r : jsstring) :
  pmap f p = Ok b r -> exists a, p = Ok a r.
Proof. destruct p; simpl; intros H; inversion H; eauto. Qed.

Lemma pmap_OutOfFuel {A B} (f : A -> B) (p : parsed A) :
  pmap f p = OutOfFuel -> p = OutOfFuel.
Proof. destruct p; simpl; intros H; inversion H; reflexivity. Qed.

Lemma string_body_total (s : jsstring) : string_body s <> OutOfFuel.
Proof.
  remember (List.length s) as n eqn:Hn. revert s Hn.
  induction n as [n IH] using (well_founded_induction Nat.lt_wf_0).
  intros s Hn. destruct s as [|c r]; simpl; [discriminate|].
  repeat break_match; try discriminate;
    intros H; apply pmap_OutOfFuel in H; revert H;
    (eapply IH; [|reflexivity]); subst; simpl; lia.
Qed.

Lemma string_body_consumes (s : jsstring) (v r : jsstring) :
  string_body s = Ok v r -> (List.length r < List.length s)%nat.
Proof.
  remember (List.length s) as n eqn:Hn. revert s v r Hn.
  induction n as [n IH] using (well_founded_induction Nat.lt_wf_0).
  intros s v r Hn. destruct s as [|c s']; simpl; [discriminate|].
  repeat break_match; try discriminate;
    try (intros [= <- <-]; subst; simpl; lia);
    intros H; apply pmap_Ok in H as [a H];
    (eapply IH in H; [|shelve|reflexivity]); subst; simpl in *; try lia.
  Unshelve. all: subst; simpl; lia.
Qed.

Lemma digits_of_length (s : jsstring) :
  (List.length (snd (digits_of s)) <= List.length s)%nat.
Proof.
  induction s as [|c s IH]; simpl; [lia|].
  destruct (is_digit c); simpl; [|lia].
  destruct (digits_of s); simpl in *. lia.
Qed.

Lemma digits_of_rest (s : jsstring) (ds : list Z) (r : jsstring) :
  digits_of s = (ds, r) -> (List.length r <= List.length s)%nat.
Proof.
  intros H. pose proof (digits_of_length s) as Hle. rewrite H in Hle. exact Hle.
Qed.

Lemma digits_of_digit (c : Z) (s : jsstring) (ds : list Z) (r : jsstring) :
  is_digit c = true -> digits_of (c :: s) = (ds, r) ->
  (List.length r <= List.length s)%nat.
Proof.
  simpl. intros ->. destruct (digits_of s) as [ds' r'] eqn:Hd.
  intros [= <- <-]. eapply digits_of_rest, Hd.
Qed.

Lemma number_total (s : jsstring) : number s <> OutOfFuel.
Proof.
  unfold number. repeat break_match; discriminate.
Qed.

Lemma literal_total (s : jsstring) : literal s <> OutOfFuel.
Proof.
  unfold literal. repeat break_match; discriminate.
Qed.

Lemma strip_prefix_length (p s r : jsstring) :
  strip_prefix p s = Some r ->
  (List.length r + List.length p = List.length s)%nat.
Proof.
  revert s. induction p as [|c p IH]; intros s; simpl.
  - intros [= ->]. lia.
  - destruct s as [|d s]; [discriminate|].
    destruct (c =? d); [|discriminate].
    intros H. apply IH in H. simpl. lia.
Qed.

Lemma literal_consumes (s : jsstring) (v : json) (r : jsstring) :
  literal s = Ok v r -> (List.length r < List.length s)%nat.
Proof.
  unfold literal.
  destruct (strip_prefix (str "true") s) eqn:H1;
    [intros [= <- <-]; apply strip_prefix_length in H1; simpl in H1; lia|].
  destruct (strip_prefix (str "false") s) eqn:H2;
    [intros [= <- <-]; apply strip_prefix_length in H2; simpl in H2; lia|].
  destruct (strip_prefix (str "null") s) eqn:H3;
    [intros [= <- <-]; apply strip_prefix_length in H3; simpl in H3; lia|].
  discriminate.
Qed.

Ltac digits_facts :=
  repeat match goal with
         | Hd : is_digit ?c = true, H : digits_of (?c :: ?s) = (_, _) |- _ =>
             apply (digits_of_digit c s _ _ Hd) in H
         | H : digits_of ?s = (_, _) |- _ => apply digits_of_rest in H
         end.

Lemma number_consumes (s : jsstring) (v : json) (r : jsstring) :
  number s = Ok v r -> (List.length r < List.length s)%nat.
Proof.
  unfold number.
  repeat (break_match; try discriminate);
    repeat match goal with
           | H : Some (digits_of ?x) = Some (?a, ?b) |- _ =>
               assert (digits_of x = (a, b)) by congruence; clear H
           | H : Some _ = Some _ |- _ => injection H as ?; subst
           | H : (_, _) = (_, _) |- _ => injection H as ?; subst
           | H : Some _ = None |- _ => discriminate H
           | H : None = Some _ |- _ => discriminate H
           end;
    intros [= <- <-]; digits_facts; simpl in *; lia.
Qed.

Ltac consumed IHv IHe IHm :=
  repeat match goal with
         | H : value _ _ = Ok _ _ |- _ => apply IHv in H
         | H : elements _ _ = Ok _ _ |- _ => apply IHe in H
         | H : members _ _ = Ok _ _ |- _ => apply IHm in H
         | H : skip_ws _ = _ :: _ |- _ => apply skip_ws_cons in H
         | H : string_body _ = Ok _ _ |- _ => apply string_body_consumes in H
         | H : number _ = Ok _ _ |- _ => apply number_consumes in H
         | H : literal _ = Ok _ _ |- _ => apply literal_consumes in H
         end.

(** Every successful parse reads at least one character. *)
Lemma parser_consumes (fuel : nat) :
  (forall s v r, value fuel s = Ok v r -> (List.length r < List.length s)%nat)
  /\ (forall s v r, elements fuel s = Ok v r ->
                    (List.length r < List.length s)%nat)
  /\ (forall s v r, members fuel s = Ok v r ->
                    (List.length r < List.length s)%nat).
Proof.
  induction fuel as [|f (IHv & IHe & IHm)];
    [repeat split; intros; discriminate|].
  repeat split; intros s v r; cbn [value elements members];
    repeat (break_match; try discriminate); intros H;
    try (injection H as <- <-); try (apply pmap_Ok in H as [? H]);
    consumed IHv IHe IHm; simpl in *; lia.
Qed.

Lemma parser_fuel (fuel : nat) :
  (forall s, (2 * List.length s < fuel)%nat -> value fuel s <> OutOfFuel)
  /\ (forall s, (2 * List.length s + 1 < fuel)%nat ->
                elements fuel s <> OutOfFuel)
  /\ (forall s, (2 * List.length s + 1 < fuel)%nat ->
                members fuel s <> OutOfFuel).
Proof.
  induction fuel as [|f (IHv & IHe & IHm)];
    [repeat split; intros; lia|].
  destruct (parser_consumes f) as (Cv & Ce & Cm).
  repeat split; intros s Hfuel; cbn [value elements members];
    repeat (break_match; try discriminate); intros H;
    try (apply pmap_OutOfFuel in H);
    try (apply number_total in H; contradiction);
    try (apply literal_total in H; contradiction);
    try (apply string_body_total in H; contradiction);
    match type of H with
    | value _ _ = _ => revert H; apply IHv
    | elements _ _ = _ => revert H; apply IHe
    | members _ _ = _ => revert H; apply IHm
    | _ => idtac
    end;
    consumed Cv Ce Cm; simpl in *; try lia;
    match goal with
    | H : string_body _ = OutOfFuel |- _ =>
        apply string_body_total in H; contradiction
    | H : value _ _ = OutOfFuel |- _ =>
        apply IHv in H; [contradiction | simpl; lia]
    end.
Qed.

(** [JSON_parse] gives its parser enough budget: a text is rejected only
    for its syntax. *)
Lemma JSON_parse_fuel (text : jsstring) :
  value (2 * List.length text + 1) text <> OutOfFuel.
Proof. apply (parser_fuel (2 * List.length text + 1)). lia. Qed.

(** ** The credential resolver *)

Lemma skipn_length_app {A} (l m : list A) : skipn (List.length l) (l ++ m) = m.
Proof. induction l as [|a l IH]; [reflexivity | exact IH]. Qed.

Lemma skipn_length_self {A} (l : list A) : skipn (List.length l) l = [].
Proof. induction l as [|a l IH]; [reflexivity | exact IH]. Qed.

(** Reading a member throws for [null] only, and then for every key. *)
Lemma member_normal (secretObject : json) (key : jsstring) :
  secretObject <> JNull -> exists v, member secretObject key = Normal v.
Proof.
  intros Hnn. destruct secretObject; simpl; eauto. contradiction.
Qed.

(** Lines 73-76 either throw and leave the world alone, or store the three
    members. *)
Lemma parse_and_store_spec (secret : jsstring) (w : World) :
  (exists e, parse_and_store secret w = (w, Throw e)
             /\ (JSON_parse secret = None -> e = SyntaxError))
  \/ (exists secretObject private_key public_key known_hosts,
        JSON_parse secret = Some secretObject
        /\ member secretObject (str "private_key") = Normal private_key
        /\ member secretObject (str "public_key") = Normal public_key
        /\ member secretObject (str "known_hosts") = Normal known_hosts
        /\ parse_and_store secret w =
           (with_repository (fun r =>
              {| Repo.URL := Repo.URL r; Repo.branch := Repo.branch r;
                 Repo.path := Repo.path r; Repo.secretName := Repo.secretName r;
                 Repo.privateKey := private_key;
                 Repo.publicKey := public_key;
                 Repo.knownHosts := known_hosts |}) w, Normal tt)).
Proof.
  unfold parse_and_store.
  destruct (JSON_parse secret) as [secretObject|] eqn:Hparse.
  - destruct secretObject;
      try (right; eexists _, _, _, _; repeat split; reflexivity).
    left. exists TypeError_read_of_null. split; [reflexivity | discriminate].
  - left. exists SyntaxError. split; [reflexivity | reflexivity].
Qed.

(** The call of [getSecretValue] adds the id to [requested], possibly an
    answer to [pending], and nothing else. *)
Lemma getSecretValue_world (sdk : Sdk) (name secret : jsstring) (w : World)
  cb :
  let w' := after (getSecretValue sdk name cb secret w) in
  bootstrapRepository w' = bootstrapRepository w
  /\ submitted w' = submitted w
  /\ console w' = console w
  /\ requested w' = requested w ++ [name].
Proof.
  unfold getSecretValue, after.
  destruct (secretsManager sdk (requested w) name) as [[|] answer];
    simpl; repeat split.
Qed.

(** A deferred answer leaves [secret] as line 51 initialised it. *)
Lemma getSecretValue_deferred (sdk : Sdk) (name secret : jsstring) (w : World)
  cb answer :
  secretsManager sdk (requested w) name = (Aws.Deferred, answer) ->
  getSecretValue sdk name cb secret w =
  (with_pending answer (with_requested name w), Normal secret).
Proof. unfold getSecretValue. intros ->. reflexivity. Qed.

Lemma JSON_parse_empty : JSON_parse [] = None.
Proof. reflexivity. Qed.

(** With the real service the resolver always throws a SyntaxError. *)
Lemma getSshKeyFromSecret_service answer (name : jsstring) (w : World) :
  getSshKeyFromSecret (service answer) name w =
  (with_pending (answer (requested w) name) (with_requested name w),
   Throw SyntaxError).
Proof. reflexivity. Qed.

(** The resolver never touches the charts, the console or the four
    read-only fields; when it throws it does not touch the repository at
    all. *)
Lemma getSshKeyFromSecret_frame (sdk : Sdk) (name : jsstring) (w : World) :
  let r := getSshKeyFromSecret sdk name w in
  submitted (after r) = submitted w
  /\ console (after r) = console w
  /\ requested (after r) = requested w ++ [name]
  /\ Repo.URL (bootstrapRepository (after r)) = Repo.URL (bootstrapRepository w)
  /\ Repo.branch (bootstrapRepository (after r)) = Repo.branch (bootstrapRepository w)
  /\ Repo.path (bootstrapRepository (after r)) = Repo.path (bootstrapRepository w)
  /\ Repo.secretName (bootstrapRepository (after r))
     = Repo.secretName (bootstrapRepository w)
  /\ (forall e, outcome r = Throw e ->
      bootstrapRepository (after r) = bootstrapRepository w).
Proof.
  unfold getSshKeyFromSecret, bind.
  pose proof (getSecretValue_world sdk name [] w getSecretValue_callback) as Hw.
  destruct (getSecretValue sdk name getSecretValue_callback [] w)
    as [w1 [secret|e]] eqn:Hget; unfold after in Hw; simpl in Hw;
    destruct Hw as (Hrepo & Hsub & Hcon & Hreq).
  - destruct (parse_and_store_spec secret w1)
      as [(e & -> & _) | (o & pk & pub & kh & _ & _ & _ & _ & ->)];
      unfold after, outcome; simpl; rewrite ?Hrepo, ?Hsub, ?Hcon, ?Hreq;
      repeat split; intros; try discriminate.
  - unfold after, outcome; simpl. rewrite Hrepo, Hsub, Hcon, Hreq.
    repeat split.
Qed.

(** ** The two hooks *)

Lemma postDeploy_body_steps (sdk : Sdk) (this : WeaveGitOpsAddOn)
  (clusterInfo : ClusterInfo) (w : World) :
  postDeploy_body sdk this clusterInfo w =
  bind (resolve_step sdk) (fun _ => submit_step this clusterInfo) w.
Proof.
  unfold postDeploy_body, resolve_step, bind, read.
  destruct (Repo.secretName (bootstrapRepository w)) as [[|c name]|];
    reflexivity.
Qed.

Lemma resolve_step_frame (sdk : Sdk) (w : World) :
  let r := resolve_step sdk w in
  submitted (after r) = submitted w
  /\ console (after r) = console w
  /\ Repo.URL (bootstrapRepository (after r)) = Repo.URL (bootstrapRepository w)
  /\ Repo.branch (bootstrapRepository (after r)) = Repo.branch (bootstrapRepository w)
  /\ Repo.path (bootstrapRepository (after r)) = Repo.path (bootstrapRepository w).
Proof.
  unfold resolve_step, bind, read.
  destruct (Repo.secretName (bootstrapRepository w)) as [[|c name]|];
    try (repeat split; reflexivity).
  pose proof (getSshKeyFromSecret_frame sdk (c :: name) w) as H.
  cbv zeta in H. tauto.
Qed.

(** What reaches [Buffer.from] at lines 114-115 is never an array or an
    object. *)
Lemma encode_field_argument (field : value_or_undefined) :
  truthy field = false ->
  match nullish_coalesce field (JString []) with
  | JArray _ | JObject _ => False
  | _ => True
  end.
Proof.
  destruct field as [[]|]; simpl; intros H; try exact I; discriminate.
Qed.

(** Lines 101-121 submit nothing, or the one bootstrap request; they do
    not write to the console. *)
Lemma submit_step_spec (this : WeaveGitOpsAddOn) (clusterInfo : ClusterInfo)
  (w : World) :
  let r := submit_step this clusterInfo w in
  console (after r) = console w
  /\ (submitted (after r) = submitted w
      \/ exists privateKey knownHosts,
           submitted (after r) =
           submitted w ++ [bootstrap_request this clusterInfo
                             (bootstrapRepository w) privateKey knownHosts]).
Proof.
  unfold submit_step, bind, read.
  destruct (truthy (Repo.privateKey (bootstrapRepository w))
            || truthy (Repo.knownHosts (bootstrapRepository w))).
  - split; [reflexivity | left; reflexivity].
  - unfold encode_field.
    destruct (nullish_coalesce (Repo.privateKey (bootstrapRepository w)) (JString []));
      try (split; [reflexivity | left; reflexivity]).
    destruct (nullish_coalesce (Repo.knownHosts (bootstrapRepository w)) (JString []));
      try (split; [reflexivity | left; reflexivity]).
    unfold ret, addHelmChart.
    match goal with
    | |- context [addHelmChart_throws ?c ?l ?q] =>
        destruct (addHelmChart_throws c l q)
    end; (split; [reflexivity | right; eexists _, _; reflexivity]).
Qed.

Lemma postDeploy_body_spec (sdk : Sdk) (this : WeaveGitOpsAddOn)
  (clusterInfo : ClusterInfo) (w : World) :
  let r := postDeploy_body sdk this clusterInfo w in
  console (after r) = console w
  /\ (submitted (after r) = submitted w
      \/ exists privateKey knownHosts application,
           submitted (after r) =
           submitted w ++ [ {| Chart.id := str "weave-gitops-application";
                               Chart.options :=
                                 {| Chart.chart := str "wego-app";
                                    Chart.repository :=
                                      str "https://murillodigital.github.io/wego-helm";
                                    Chart.version := str "0.0.1";
                                    Chart.namespace := namespace this;
                                    Chart.values :=
                                      Some {| Chart.applications := [application] |} |} |} ]
           /\ Chart.applicationName application = clusterName (cluster clusterInfo)
           /\ Chart.gitRepository application = Repo.URL (bootstrapRepository w)
           /\ Chart.privateKey application = privateKey
           /\ Chart.knownHosts application = knownHosts
           /\ Chart.path application = Repo.path (bootstrapRepository w)
           /\ Chart.branch application = Repo.branch (bootstrapRepository w)).
Proof.
  cbv zeta. rewrite postDeploy_body_steps. unfold bind.
  pose proof (resolve_step_frame sdk w) as Hres. cbv zeta in Hres.
  destruct (resolve_step sdk w) as [w1 [[]|e]]; unfold after in Hres;
    simpl in Hres; destruct Hres as (Hsub & Hcon & Hurl & Hbranch & Hpath).
  - pose proof (submit_step_spec this clusterInfo w1) as Hsubmit.
    cbv zeta in Hsubmit. destruct Hsubmit as (Hcon2 & Hreq).
    split; [congruence|].
    destruct Hreq as [Hsame | (pk & kh & Hnew)]; [left; congruence|].
    right. eexists pk, kh, _. rewrite Hnew, Hsub.
    split; [reflexivity|]. simpl. repeat split; assumption.
  - unfold after; simpl. split; [assumption | left; assumption].
Qed.

(** ** Properties of the specification *)

(** C7. [deploy] submits exactly one install request, whatever the
    bootstrap repository holds: id ["weave-gitops-core"], chart
    ["wego-core"], the fixed repository URL, version ["0.0.5"], the
    add-on's namespace and no values.  It neither reads nor writes the
    repository. *)
Theorem deploy_submits_one_core_request (this : WeaveGitOpsAddOn)
  (clusterInfo : ClusterInfo) (w : World) :
  submitted (after (deploy this clusterInfo w)) =
    submitted w ++
    [ {| Chart.id := str "weave-gitops-core";
         Chart.options :=
           {| Chart.chart := str "wego-core";
              Chart.repository := str "https://murillodigital.github.io/wego-helm";
              Chart.version := str "0.0.5";
              Chart.namespace := namespace this;
              Chart.values := None |} |} ]
  /\ bootstrapRepository (after (deploy this clusterInfo w)) = bootstrapRepository w
  /\ forall repo : Repo.BootstrapRepository,
       deploy this clusterInfo (with_repository (fun _ => repo) w) =
       (with_repository (fun _ => repo) (after (deploy this clusterInfo w)),
        outcome (deploy this clusterInfo w)).
Proof.
  unfold deploy, try_catch, deploy_body, addHelmChart, after, outcome.
  cbn [submitted with_repository].
  destruct (addHelmChart_throws _ _ _); repeat split.
Qed.

(** C8. Every request that [postDeploy] submits carries a one-element
    [applications] list whose [applicationName] is the cluster's name and
    whose [gitRepository] is the repository's [URL] as it was on entry. *)
Theorem postDeploy_application_entry (Team : Type) (sdk : Sdk)
  (this : WeaveGitOpsAddOn) (clusterInfo : ClusterInfo) (teams : list Team)
  (w : World) (request : Chart.Request) :
  In request (new_requests w (after (postDeploy sdk this clusterInfo teams w))) ->
  exists application,
    Chart.values (Chart.options request)
      = Some {| Chart.applications := [application] |}
    /\ Chart.applicationName application = clusterName (cluster clusterInfo)
    /\ Chart.gitRepository application = Repo.URL (bootstrapRepository w).
Proof.
  unfold postDeploy, try_catch, new_requests.
  pose proof (postDeploy_body_spec sdk this clusterInfo w) as Hbody.
  cbv zeta in Hbody.
  destruct (postDeploy_body sdk this clusterInfo w) as [w1 [[]|e]];
    unfold after in *; cbn [fst console_error update with_console submitted] in *;
    destruct Hbody as (_ & [Hsame | (pk & kh & app & Hnew & Hname & Hurl & _)]);
    try (rewrite Hsame, skipn_length_self; contradiction);
    rewrite Hnew, skipn_length_app; intros [<- | []];
    exists app; repeat split; assumption.
Qed.

(** C4. Neither hook lets an exception out: both complete normally on
    every input, and whatever their [try] block throws ends up on the
    console, after the step's message. *)
Theorem hooks_catch_and_log (Team : Type) (sdk : Sdk) (this : WeaveGitOpsAddOn)
  (clusterInfo : ClusterInfo) (teams : list Team) (w : World) :
  outcome (deploy this clusterInfo w) = Normal tt
  /\ outcome (postDeploy sdk this clusterInfo teams w) = Normal tt
  /\ (forall e, outcome (deploy_body this clusterInfo w) = Throw e ->
      new_lines w (after (deploy this clusterInfo w))
      = [ {| text := deploy_failed; interpolated := e |} ])
  /\ (forall e, outcome (postDeploy_body sdk this clusterInfo w) = Throw e ->
      new_lines w (after (postDeploy sdk this clusterInfo teams w))
      = [ {| text := postDeploy_failed; interpolated := e |} ]).
Proof.
  unfold deploy, postDeploy, try_catch, outcome, after, new_lines.
  repeat split.
  - destruct (deploy_body this clusterInfo w) as [w1 [[]|e]]; reflexivity.
  - destruct (postDeploy_body sdk this clusterInfo w) as [w1 [[]|e]]; reflexivity.
  - intros e. unfold deploy_body, addHelmChart.
    destruct (addHelmChart_throws _ _ _); cbn; [|discriminate].
    intros [= ->]. apply skipn_length_app.
  - intros e He.
    pose proof (postDeploy_body_spec sdk this clusterInfo w) as (Hcon & _).
    destruct (postDeploy_body sdk this clusterInfo w) as [w1 [[]|e']];
      cbn in *; [discriminate|]. injection He as ->.
    rewrite Hcon. apply skipn_length_app.
Qed.


Lemma postDeploy_application_entry_witness :
  let w := initial (repository None None None None) in
  let request :=
    bootstrap_request (constructor None) accepting_cluster
      (bootstrapRepository w) [] [] in
  In request
     (new_requests w
        (after (postDeploy (service (fun _ _ => secret_string sample_payload))
                  (constructor None) accepting_cluster (@nil unit) w)))
  /\ exists application,
       Chart.values (Chart.options request)
         = Some {| Chart.applications := [application] |}
       /\ Chart.applicationName application = str "blueprint"
       /\ Chart.gitRepository application
          = str "git@github.com:example/bootstrap.git".
Proof.
  cbv zeta.
  assert (Hin : In (bootstrap_request (constructor None) accepting_cluster
                      (bootstrapRepository (initial (repository None None None None)))
                      [] [])
                   (new_requests (initial (repository None None None None))
                      (after (postDeploy
                                (service (fun _ _ => secret_string sample_payload))
                                (constructor None) accepting_cluster (@nil unit)
                                (initial (repository None None None None))))))
    by (left; reflexivity).
  split; [exact Hin|].
  exact (postDeploy_application_entry unit _ _ _ _ _ _ Hin).
Defined.

Lemma hooks_catch_and_log_witness :
  let w := initial (repository None None None None) in
  let sdk := service (fun _ _ => secret_string sample_payload) in
  let failure := Thrown_Error (str "Error") (str "install failed") in
  outcome (deploy (constructor None) failing_cluster w) = Normal tt
  /\ outcome (postDeploy sdk (constructor None) failing_cluster (@nil unit) w)
     = Normal tt
  /\ new_lines w (after (deploy (constructor None) failing_cluster w))
     = [ {| text := deploy_failed; interpolated := failure |} ]
  /\ new_lines w
       (after (postDeploy sdk (constructor None) failing_cluster (@nil unit) w))
     = [ {| text := postDeploy_failed; interpolated := failure |} ].
Proof.
  cbv zeta.
  destruct (hooks_catch_and_log unit
              (service (fun _ _ => secret_string sample_payload))
              (constructor None) failing_cluster (@nil unit)
              (initial (repository None None None None)))
    as (Hd & Hp & Hdl & Hpl).
  split; [exact Hd|]. split; [exact Hp|].
  split; [apply Hdl; reflexivity | apply Hpl; reflexivity].
Defined.

(** C1. With [secretName] unset and credentials of the declared type,
    [postDeploy] does the opposite of the required check: it aborts with
    the "details are missing" failure as soon as [privateKey] or
    [knownHosts] is a non-empty string, and submits the bootstrap request
    only when both are empty or absent. *)
Theorem postDeploy_check_is_inverted (Team : Type) (sdk : Sdk)
  (this : WeaveGitOpsAddOn) (clusterInfo : ClusterInfo) (teams : list Team)
  (url branch path : jsstring) (privateKey publicKey knownHosts : option jsstring)
  (w0 : World) :
  let repo :=
    {| Repo.URL := url; Repo.branch := branch; Repo.path := path;
       Repo.secretName := None;
       Repo.privateKey := string_field privateKey;
       Repo.publicKey := string_field publicKey;
       Repo.knownHosts := string_field knownHosts |} in
  let w := with_repository (fun _ => repo) w0 in
  let w' := after (postDeploy sdk this clusterInfo teams w) in
  if truthy (string_field privateKey) || truthy (string_field knownHosts)
  then new_requests w w' = []
       /\ new_lines w w'
          = [ {| text := postDeploy_failed; interpolated := missing_details |} ]
  else new_requests w w' = [bootstrap_request this clusterInfo repo [] []].
Proof.
  cbv zeta.
  destruct privateKey as [[|c1 s1]|], knownHosts as [[|c2 s2]|];
    unfold postDeploy, try_catch, postDeploy_body, bind, read, after,
      new_requests, new_lines;
    cbn [with_repository bootstrapRepository Repo.secretName Repo.privateKey
         Repo.knownHosts string_field option_map truthy orb ret throw
         encode_field nullish_coalesce submitted console fst
         console_error update with_console];
    try (split; [apply skipn_length_self | apply skipn_length_app]);
    unfold addHelmChart;
    match goal with
    | |- context [addHelmChart_throws ?c ?l ?q] =>
        destruct (addHelmChart_throws c l q)
    end;
    cbn [with_submitted submitted fst console_error update with_console];
    apply skipn_length_app.
Qed.

(** C5. With [secretName] unset and both credentials non-empty strings,
    [postDeploy] indeed leaves the Secret Store alone, but it submits no
    request either: line 101 throws and the failure is logged. *)
Theorem postDeploy_populated_credentials (Team : Type) (sdk : Sdk)
  (this : WeaveGitOpsAddOn) (clusterInfo : ClusterInfo) (teams : list Team)
  (url branch path : jsstring) (c1 : Z) (key : jsstring)
  (publicKey : value_or_undefined) (c2 : Z) (hosts : jsstring) (w0 : World) :
  let repo :=
    {| Repo.URL := url; Repo.branch := branch; Repo.path := path;
       Repo.secretName := None;
       Repo.privateKey := Some (JString (c1 :: key));
       Repo.publicKey := publicKey;
       Repo.knownHosts := Some (JString (c2 :: hosts)) |} in
  let w := with_repository (fun _ => repo) w0 in
  let w' := after (postDeploy sdk this clusterInfo teams w) in
  requested w' = requested w
  /\ pending w' = pending w
  /\ new_requests w w' = []
  /\ new_lines w w'
     = [ {| text := postDeploy_failed; interpolated := missing_details |} ].
Proof.
  cbv zeta. unfold new_requests, new_lines. cbn.
  repeat split; [apply skipn_length_self | apply skipn_length_app].
Qed.

(** C2. The service answers with the payload of the specification
    (members private_key: A, public_key: B, known_hosts: C).  The resolver
    parses [secret] while it still holds the empty string: it throws a
    SyntaxError, the repository keeps its fields, and the answer waits in
    [pending] for a callback whose assignment nobody reads. *)
Theorem getSshKeyFromSecret_parses_before_the_answer (name : jsstring)
  (w : World) :
  let sdk := service (fun _ _ => secret_string sample_payload) in
  let r := getSshKeyFromSecret sdk name w in
  outcome r = Throw SyntaxError
  /\ bootstrapRepository (after r) = bootstrapRepository w
  /\ pending (after r) = pending w ++ [secret_string sample_payload]
  /\ JSON_parse sample_payload
     = Some (JObject [(str "private_key", JString (str "A"));
                      (str "public_key", JString (str "B"));
                      (str "known_hosts", JString (str "C"))]).
Proof.
  cbv zeta. rewrite getSshKeyFromSecret_service.
  repeat split.
Qed.

Lemma uncaught_app (w : World) (answer : Aws.reply) :
  uncaught (with_console
              {| text := postDeploy_failed; interpolated := SyntaxError |}
              (with_pending answer w))
  = uncaught w ++ match getSecretValue_callback answer [] with
                  | Throw e => [e]
                  | Normal _ => []
                  end.
Proof.
  unfold uncaught. cbn [pending with_console with_pending].
  rewrite flat_map_app. cbn [flat_map]. rewrite app_nil_r. reflexivity.
Qed.

(** When a secret is named and the service is asked, [postDeploy] logs the
    resolver's SyntaxError and returns. *)
Lemma postDeploy_service_named (Team : Type) answer (this : WeaveGitOpsAddOn)
  (clusterInfo : ClusterInfo) (teams : list Team) (w : World)
  (c : Z) (name : jsstring) :
  Repo.secretName (bootstrapRepository w) = Some (c :: name) ->
  postDeploy (service answer) this clusterInfo teams w =
  (with_console {| text := postDeploy_failed; interpolated := SyntaxError |}
     (with_pending (answer (requested w) (c :: name))
        (with_requested (c :: name) w)),
   Normal tt).
Proof.
  intros Hname.
  unfold postDeploy, try_catch, postDeploy_body, bind, read.
  rewrite Hname. reflexivity.
Qed.

(** C3. For each of the five store errors, answered by the service: the
    resolver has already thrown a SyntaxError when the error arrives, so
    that is what [postDeploy] catches and logs; the store error itself is
    thrown later by the callback, with no handler around it. *)
Theorem store_error_misses_the_boundary (Team : Type) :
  Forall
    (fun code =>
       forall (message : jsstring) (c : Z) (name : jsstring)
              (this : WeaveGitOpsAddOn) (clusterInfo : ClusterInfo)
              (teams : list Team) (url branch path : jsstring)
              (privateKey publicKey knownHosts : value_or_undefined)
              (w0 : World),
         let err := {| Aws.code := code; Aws.message := message |} in
         let sdk := service (fun _ _ => inl err) in
         let repo :=
           {| Repo.URL := url; Repo.branch := branch; Repo.path := path;
              Repo.secretName := Some (c :: name);
              Repo.privateKey := privateKey;
              Repo.publicKey := publicKey;
              Repo.knownHosts := knownHosts |} in
         let w := with_repository (fun _ => repo) w0 in
         let w' := after (postDeploy sdk this clusterInfo teams w) in
         outcome (getSshKeyFromSecret sdk (c :: name) w) = Throw SyntaxError
         /\ new_lines w w'
            = [ {| text := postDeploy_failed; interpolated := SyntaxError |} ]
         /\ new_requests w w' = []
         /\ uncaught w' = uncaught w ++ [Thrown_AWSError err])
    store_error_codes.
Proof.
  unfold store_error_codes.
  repeat (apply Forall_cons; [intros; cbv zeta; repeat split|]);
    [ .. | apply Forall_nil ];
    rewrite ?(postDeploy_service_named Team _ this clusterInfo teams _ c name)
      by reflexivity;
    unfold after; cbn [fst];
    try (rewrite uncaught_app; reflexivity);
    unfold new_lines, new_requests;
    cbn [submitted console with_console with_pending with_requested
         with_repository];
    try apply skipn_length_self; apply skipn_length_app.
Qed.

(** C9. When the resolver returns, the repository differs from the one
    it was given in [privateKey], [publicKey] and [knownHosts] only: they
    hold the three members of the parsed secret, while [URL], [branch],
    [path] and [secretName] are as before.  Nothing is returned (the
    completion carries the unit value), and neither the charts nor the
    console are touched. *)
Theorem getSshKeyFromSecret_mutates_three_fields (sdk : Sdk) (name : jsstring)
  (w : World) :
  outcome (getSshKeyFromSecret sdk name w) = Normal tt ->
  let before := bootstrapRepository w in
  let w' := after (getSshKeyFromSecret sdk name w) in
  exists secret secretObject private_key public_key known_hosts,
    outcome (getSecretValue sdk name getSecretValue_callback [] w) = Normal secret
    /\ JSON_parse secret = Some secretObject
    /\ member secretObject (str "private_key") = Normal private_key
    /\ member secretObject (str "public_key") = Normal public_key
    /\ member secretObject (str "known_hosts") = Normal known_hosts
    /\ bootstrapRepository w' =
       {| Repo.URL := Repo.URL before;
          Repo.branch := Repo.branch before;
          Repo.path := Repo.path before;
          Repo.secretName := Repo.secretName before;
          Repo.privateKey := private_key;
          Repo.publicKey := public_key;
          Repo.knownHosts := known_hosts |}
    /\ submitted w' = submitted w
    /\ console w' = console w.
Proof.
  unfold getSshKeyFromSecret, bind, outcome, after.
  pose proof (getSecretValue_world sdk name [] w getSecretValue_callback) as Hw.
  destruct (getSecretValue sdk name getSecretValue_callback [] w)
    as [w1 [secret|e]]; unfold after in Hw; simpl in Hw;
    destruct Hw as (Hrepo & Hsub & Hcon & _); [|discriminate].
  destruct (parse_and_store_spec secret w1)
    as [(e & -> & _) | (o & pk & pub & kh & Hparse & Hpk & Hpub & Hkh & ->)];
    [discriminate|].
  intros _. exists secret, o, pk, pub, kh. cbn. rewrite Hrepo.
  repeat split; assumption.
Qed.

Lemma getSshKeyFromSecret_mutates_three_fields_witness :
  let sdk := synchronous_stub (secret_string sample_payload) in
  let w := initial (repository (Some (str "bootstrap-ssh")) None None None) in
  outcome (getSshKeyFromSecret sdk (str "bootstrap-ssh") w) = Normal tt
  /\ exists secret secretObject private_key public_key known_hosts,
       outcome (getSecretValue sdk (str "bootstrap-ssh")
                  getSecretValue_callback [] w) = Normal secret
       /\ JSON_parse secret = Some secretObject
       /\ member secretObject (str "private_key") = Normal private_key
       /\ member secretObject (str "public_key") = Normal public_key
       /\ member secretObject (str "known_hosts") = Normal known_hosts
       /\ bootstrapRepository
            (after (getSshKeyFromSecret sdk (str "bootstrap-ssh") w)) =
          {| Repo.URL := str "git@github.com:example/bootstrap.git";
             Repo.branch := str "main";
             Repo.path := str "./";
             Repo.secretName := Some (str "bootstrap-ssh");
             Repo.privateKey := private_key;
             Repo.publicKey := public_key;
             Repo.knownHosts := known_hosts |}
       /\ submitted (after (getSshKeyFromSecret sdk (str "bootstrap-ssh") w)) = []
       /\ console (after (getSshKeyFromSecret sdk (str "bootstrap-ssh") w)) = [].
Proof.
  cbv zeta. split; [reflexivity|].
  apply (getSshKeyFromSecret_mutates_three_fields
           (synchronous_stub (secret_string sample_payload))
           (str "bootstrap-ssh")
           (initial (repository (Some (str "bootstrap-ssh")) None None None))).
  reflexivity.
Defined.

(** C10. If [JSON.parse] rejects the text that [secret] holds at line 73,
    the resolver throws the SyntaxError and the repository is exactly the
    one it was given: none of the three assignments has run. *)
Theorem getSshKeyFromSecret_parse_failure_is_atomic (sdk : Sdk)
  (name secret : jsstring) (w : World) :
  outcome (getSecretValue sdk name getSecretValue_callback [] w) = Normal secret ->
  JSON_parse secret = None ->
  outcome (getSshKeyFromSecret sdk name w) = Throw SyntaxError
  /\ bootstrapRepository (after (getSshKeyFromSecret sdk name w))
     = bootstrapRepository w.
Proof.
  unfold getSshKeyFromSecret, bind, outcome, after.
  pose proof (getSecretValue_world sdk name [] w getSecretValue_callback) as Hw.
  destruct (getSecretValue sdk name getSecretValue_callback [] w)
    as [w1 [secret'|e]]; unfold after in Hw; simpl in Hw;
    destruct Hw as (Hrepo & _); [|discriminate].
  intros [= ->] Hparse. unfold parse_and_store. rewrite Hparse.
  split; [reflexivity | exact Hrepo].
Qed.

Lemma getSshKeyFromSecret_parse_failure_is_atomic_witness :
  let sdk := synchronous_stub (secret_string truncated_payload) in
  let w := initial (repository (Some (str "bootstrap-ssh"))
                      (Some (str "old key")) None (Some (str "old hosts"))) in
  outcome (getSecretValue sdk (str "bootstrap-ssh") getSecretValue_callback [] w)
    = Normal truncated_payload
  /\ JSON_parse truncated_payload = None
  /\ outcome (getSshKeyFromSecret sdk (str "bootstrap-ssh") w) = Throw SyntaxError
  /\ bootstrapRepository (after (getSshKeyFromSecret sdk (str "bootstrap-ssh") w))
     = repository (Some (str "bootstrap-ssh"))
         (Some (str "old key")) None (Some (str "old hosts")).
Proof.
  cbv zeta. split; [reflexivity|]. split; [reflexivity|].
  apply (getSshKeyFromSecret_parse_failure_is_atomic
           (synchronous_stub (secret_string truncated_payload))
           (str "bootstrap-ssh") truncated_payload
           (initial (repository (Some (str "bootstrap-ssh"))
                       (Some (str "old key")) None (Some (str "old hosts")))));
    reflexivity.
Defined.

(** ** [base64EncodeContents] *)

Lemma from_binary_bytes (contents : jsstring) :
  Forall is_byte (Buffer.from_binary contents).
Proof.
  unfold Buffer.from_binary. induction contents as [|c s IH]; constructor.
  - unfold is_byte. apply Z.mod_pos_bound. lia.
  - exact IH.
Qed.

Lemma from_binary_id (contents : jsstring) :
  is_binary contents = true -> Buffer.from_binary contents = contents.
Proof.
  unfold Buffer.from_binary, is_binary.
  induction contents as [|c s IH]; [reflexivity|].
  cbn [forallb map]. intros H. apply andb_true_iff in H as [Hc Hs].
  rewrite IH by exact Hs. f_equal. apply Z.mod_small. lia.
Qed.

(** Decoding the output gives back the bytes that [Buffer.from] made of
    the string: the low byte of each code unit. *)
Lemma decode_base64EncodeContents (contents : jsstring) :
  Buffer.base64_decode (base64EncodeContents contents)
  = Some (Buffer.from_binary contents).
Proof.
  unfold base64EncodeContents. apply decode_toString_base64, from_binary_bytes.
Qed.

(** C6 (as amended). Base64-decoding the output of
    [base64EncodeContents] yields the low byte of every code unit of the
    input; for a string whose code units are all below 256 that is the
    string itself, unit for unit. *)
Theorem base64EncodeContents_round_trip (contents : jsstring) :
  Buffer.base64_decode (base64EncodeContents contents)
  = Some (map (fun c => c mod 256) contents)
  /\ (is_binary contents = true ->
      Buffer.base64_decode (base64EncodeContents contents) = Some contents).
Proof.
  split; [apply decode_base64EncodeContents|].
  intros Hbin. rewrite decode_base64EncodeContents.
  f_equal. apply from_binary_id, Hbin.
Qed.

Lemma base64EncodeContents_round_trip_witness :
  is_binary (str "ssh-ed25519 AAAAC3Nz") = true
  /\ Buffer.base64_decode (base64EncodeContents (str "ssh-ed25519 AAAAC3Nz"))
     = Some (str "ssh-ed25519 AAAAC3Nz").
Proof.
  split; [reflexivity|].
  apply (proj2 (base64EncodeContents_round_trip (str "ssh-ed25519 AAAAC3Nz"))).
  reflexivity.
Defined.

(** C6 as stated fails on the one-unit string U+20AC: only the byte 0xAC
    is encoded, so decoding cannot give the original back; the string
    U+00AC has the same encoding. *)
Lemma base64EncodeContents_drops_high_byte :
  well_formed [8364]
  /\ Buffer.base64_decode (base64EncodeContents [8364]) = Some [172]
  /\ Buffer.base64_decode (base64EncodeContents [8364]) <> Some [8364]
  /\ base64EncodeContents [8364] = base64EncodeContents [172].
Proof.
  split; [repeat constructor; lia|].
  split; [reflexivity|]. split; [discriminate | reflexivity].
Qed.

(** ** Sanity checks on concrete inputs *)

Example base64_alphabet :
  map Buffer.sextet_char
      (map Z.of_nat (seq 0 64))
  = str "ABCDEFGHIJKLMNOPQRSTUVWXYZabcdefghijklmnopqrstuvwxyz0123456789+/".
Proof. reflexivity. Qed.

Example base64_hello :
  base64EncodeContents (str "hello") = str "aGVsbG8="
  /\ base64EncodeContents (str "hi") = str "aGk="
  /\ base64EncodeContents [] = [].
Proof. repeat split. Qed.

Example JSON_parse_nested :
  JSON_parse (str " [1, 2.50e-3, true, null, {}, []] ")
  = Some (JArray [JNumber false 1 0; JNumber false 250 (-5); JBool true;
                  JNull; JObject []; JArray []]).
Proof. reflexivity. Qed.

Example JSON_parse_rejects :
  JSON_parse (str "[1,]") = None
  /\ JSON_parse (str "01") = None
  /\ JSON_parse (str "nul") = None
  /\ JSON_parse (str "{} x") = None
  /\ JSON_parse truncated_payload = None.
Proof. repeat split. Qed.

Example own_property_last_wins :
  option_map (fun o => member o (str "a"))
    (JSON_parse (str "{" ++ quoted "a" ++ str ":1," ++ quoted "a" ++ str ":2}"))
  = Some (Normal (Some (JNumber false 2 0))).
Proof. reflexivity. Qed.

Example member_of_null :
  option_map (fun o => member o (str "private_key")) (JSON_parse (str "null"))
  = Some (Throw TypeError_read_of_null).
Proof. reflexivity. Qed.

Example truthy_numbers :
  option_map (fun v => truthy (Some v)) (JSON_parse (str "0.000"))
  = Some false
  /\ option_map (fun v => truthy (Some v)) (JSON_parse (str "-0e7"))
     = Some false
  /\ option_map (fun v => truthy (Some v)) (JSON_parse (str "5e-324"))
     = Some true
  /\ option_map (fun v => truthy (Some v)) (JSON_parse (str "1e-400"))
     = Some false.
Proof. repeat split. Qed.

(** Had the client answered before [getSecretValue] returned, the fields
    would be set, and line 101 would then reject them for being there. *)
Example postDeploy_with_synchronous_stub :
  let w := initial (repository (Some (str "bootstrap-ssh")) None None None) in
  let w' := after (postDeploy (synchronous_stub (secret_string sample_payload))
                     (constructor None) accepting_cluster (@nil unit) w) in
  bootstrapRepository w'
  = repository (Some (str "bootstrap-ssh"))
      (Some (str "A")) (Some (str "B")) (Some (str "C"))
  /\ submitted w' = []
  /\ console w' = [ {| text := postDeploy_failed;
                       interpolated := missing_details |} ].
Proof. repeat split. Qed.

(** A store error delivered synchronously would reach [postDeploy]. *)
Example postDeploy_with_synchronous_error :
  let err := {| Aws.code := str "ResourceNotFoundException";
                Aws.message := str "Secrets Manager can't find the secret." |} in
  let w := initial (repository (Some (str "bootstrap-ssh")) None None None) in
  let w' := after (postDeploy (synchronous_stub (inl err))
                     (constructor None) accepting_cluster (@nil unit) w) in
  console w' = [ {| text := postDeploy_failed;
                    interpolated := Thrown_AWSError err |} ]
  /\ submitted w' = [].
Proof. repeat split. Qed.

(** An error code outside the five is dropped by the callback. *)
Example callback_ignores_other_codes :
  getSecretValue_callback
    (inl {| Aws.code := str "AccessDeniedException"; Aws.message := [] |}) []
  = Normal [].
Proof. reflexivity. Qed.

Example constructor_namespace :
  namespace (constructor None) = str "wego-system"
  /\ namespace (constructor (Some (str "flux"))) = str "flux".
Proof. split; reflexivity. Qed.

(** ** Further properties of the hooks *)

Lemma eqb_eq (s t : jsstring) : JsString.eqb s t = true <-> s = t.
Proof.
  revert t. induction s as [|c s IH]; intros [|d t]; simpl;
    try (split; [discriminate | discriminate]); [tauto|].
  rewrite andb_true_iff, Z.eqb_eq, IH.
  split; [intros [-> ->]; reflexivity | intros [= -> ->]; auto].
Qed.

Lemma eqb_neq (s t : jsstring) : s <> t -> JsString.eqb s t = false.
Proof.
  intros Hne. destruct (JsString.eqb s t) eqn:E; [|reflexivity].
  apply eqb_eq in E. contradiction.
Qed.

(** The callback lets every error pass whose code is not one of the five. *)
Lemma callback_unlisted (err : Aws.AWSError) (secret : jsstring) :
  ~ In (Aws.code err) store_error_codes ->
  getSecretValue_callback (inl err) secret = Normal secret.
Proof.
  intros Hnot. unfold getSecretValue_callback.
  rewrite !eqb_neq; [reflexivity|..];
    intros Heq; apply Hnot; rewrite Heq; simpl; tauto.
Qed.

Lemma callback_listed (err : Aws.AWSError) (secret : jsstring) :
  In (Aws.code err) store_error_codes ->
  getSecretValue_callback (inl err) secret = Throw (Thrown_AWSError err).
Proof.
  unfold store_error_codes. intros Hin. unfold getSecretValue_callback.
  repeat (destruct Hin as [<- | Hin]; [reflexivity|]);
    destruct Hin.
Qed.

(** The bootstrap request reads [URL], [path] and [branch] only. *)
Lemma bootstrap_request_ext (this : WeaveGitOpsAddOn) (clusterInfo : ClusterInfo)
  (r r' : Repo.BootstrapRepository) (privateKey knownHosts : jsstring) :
  Repo.URL r' = Repo.URL r -> Repo.path r' = Repo.path r ->
  Repo.branch r' = Repo.branch r ->
  bootstrap_request this clusterInfo r' privateKey knownHosts
  = bootstrap_request this clusterInfo r privateKey knownHosts.
Proof. unfold bootstrap_request. intros -> -> ->. reflexivity. Qed.

(** A falsy field is encoded as the empty string, or rejected by
    [Buffer.from]. *)
Lemma encode_field_falsy (field : value_or_undefined) (w : World) :
  truthy field = false ->
  encode_field field w = (w, Normal [])
  \/ exists e, encode_field field w = (w, Throw e).
Proof.
  destruct field as [[| b | n m e | [|c s] | l | ms]|]; simpl; intros H;
    try discriminate; try (left; reflexivity); right; eexists; reflexivity.
Qed.

(** Lines 101-121 throw and change nothing, or submit the bootstrap
    request with empty credentials. *)
Lemma submit_step_cases (this : WeaveGitOpsAddOn) (clusterInfo : ClusterInfo)
  (w : World) :
  (exists e, submit_step this clusterInfo w = (w, Throw e))
  \/ submit_step this clusterInfo w
     = (with_submitted
          (bootstrap_request this clusterInfo (bootstrapRepository w) [] []) w,
        match addHelmChart_throws (cluster clusterInfo) (submitted w)
                (bootstrap_request this clusterInfo (bootstrapRepository w) [] [])
        with
        | Some e => Throw e
        | None => Normal tt
        end).
Proof.
  unfold submit_step, bind, read.
  destruct (truthy (Repo.privateKey (bootstrapRepository w))) eqn:Hpk;
    [left; eexists; reflexivity|].
  destruct (truthy (Repo.knownHosts (bootstrapRepository w))) eqn:Hkh;
    [left; eexists; reflexivity|].
  cbn [orb].
  destruct (encode_field_falsy _ w Hpk) as [-> | [e ->]];
    [|left; eexists; reflexivity].
  destruct (encode_field_falsy _ w Hkh) as [-> | [e ->]];
    [|left; eexists; reflexivity].
  right. unfold addHelmChart, bootstrap_request. cbn [Chart.id Chart.options].
  match goal with
  | |- context [addHelmChart_throws ?c ?l ?q] =>
      destruct (addHelmChart_throws c l q)
  end; reflexivity.
Qed.

(** Lines 98-100: the store is asked for a non-empty [secretName] only;
    the charts, the console and the read-only fields stay, and so does the
    whole repository when the step throws or asks nothing. *)
Lemma resolve_step_world (sdk : Sdk) (w : World) :
  let r := resolve_step sdk w in
  submitted (after r) = submitted w
  /\ console (after r) = console w
  /\ requested (after r)
     = requested w ++ store_requests (Repo.secretName (bootstrapRepository w))
  /\ Repo.URL (bootstrapRepository (after r)) = Repo.URL (bootstrapRepository w)
  /\ Repo.branch (bootstrapRepository (after r)) = Repo.branch (bootstrapRepository w)
  /\ Repo.path (bootstrapRepository (after r)) = Repo.path (bootstrapRepository w)
  /\ Repo.secretName (bootstrapRepository (after r))
     = Repo.secretName (bootstrapRepository w)
  /\ (forall e, outcome r = Throw e ->
      bootstrapRepository (after r) = bootstrapRepository w)
  /\ (store_requests (Repo.secretName (bootstrapRepository w)) = [] ->
      r = (w, Normal tt)).
Proof.
  unfold resolve_step, bind, read.
  destruct (Repo.secretName (bootstrapRepository w)) as [[|c name]|] eqn:Hname;
    cbn [store_requests];
    try (rewrite app_nil_r; repeat split; intros;
         first [reflexivity | exact Hname | discriminate]).
  pose proof (getSshKeyFromSecret_frame sdk (c :: name) w) as H.
  cbv zeta in H. rewrite Hname in H.
  destruct H as (H1 & H2 & H3 & H4 & H5 & H6 & H7 & H8).
  repeat split; try assumption. discriminate.
Qed.

(** The three ways [postDeploy] can end.  [w1] is the world after lines
    98-100. *)
Lemma postDeploy_cases (Team : Type) (sdk : Sdk) (this : WeaveGitOpsAddOn)
  (clusterInfo : ClusterInfo) (teams : list Team) (w : World) :
  let request :=
    bootstrap_request this clusterInfo (bootstrapRepository w) [] [] in
  let line e := {| text := postDeploy_failed; interpolated := e |} in
  exists w1,
    submitted w1 = submitted w
    /\ console w1 = console w
    /\ requested w1
       = requested w ++ store_requests (Repo.secretName (bootstrapRepository w))
    /\ Repo.URL (bootstrapRepository w1) = Repo.URL (bootstrapRepository w)
    /\ Repo.branch (bootstrapRepository w1) = Repo.branch (bootstrapRepository w)
    /\ Repo.path (bootstrapRepository w1) = Repo.path (bootstrapRepository w)
    /\ Repo.secretName (bootstrapRepository w1)
       = Repo.secretName (bootstrapRepository w)
    /\ (store_requests (Repo.secretName (bootstrapRepository w)) = [] -> w1 = w)
    /\ ((exists e, postDeploy sdk this clusterInfo teams w
                   = (with_console (line e) w1, Normal tt))
        \/ postDeploy sdk this clusterInfo teams w
           = (with_submitted request w1, Normal tt)
        \/ (exists e, postDeploy sdk this clusterInfo teams w
                      = (with_console (line e) (with_submitted request w1),
                         Normal tt))).
Proof.
  cbv zeta. unfold postDeploy, try_catch.
  rewrite postDeploy_body_steps. unfold bind.
  pose proof (resolve_step_world sdk w) as Hres. cbv zeta in Hres.
  destruct (resolve_step sdk w) as [w1 c1]. unfold after, outcome in Hres.
  cbn [fst snd] in Hres.
  destruct Hres as (Hsub & Hcon & Hreq & Hurl & Hbranch & Hpath & Hname & _ & Hsame).
  exists w1. repeat (split; [assumption|]).
  split; [intros Hnone; specialize (Hsame Hnone); congruence|].
  destruct c1 as [[]|e]; [|left; exists e; reflexivity].
  rewrite <- (bootstrap_request_ext this clusterInfo (bootstrapRepository w)
                (bootstrapRepository w1) [] [] Hurl Hpath Hbranch).
  destruct (submit_step_cases this clusterInfo w1) as [[e ->] | ->];
    [left; exists e; reflexivity|].
  destruct (addHelmChart_throws _ _ _) as [e|];
    [right; right; exists e; reflexivity | right; left; reflexivity].
Qed.

Lemma deploy_cases (this : WeaveGitOpsAddOn) (clusterInfo : ClusterInfo)
  (w : World) :
  deploy this clusterInfo w = (with_submitted (core_request this) w, Normal tt)
  \/ exists e, deploy this clusterInfo w
               = (with_console {| text := deploy_failed; interpolated := e |}
                    (with_submitted (core_request this) w), Normal tt).
Proof.
  unfold deploy, try_catch, deploy_body, addHelmChart.
  change {| Chart.id := str "weave-gitops-core";
            Chart.options := core_chart this |} with (core_request this).
  destruct (addHelmChart_throws _ _ _) as [e|];
    [right; exists e; reflexivity | left; reflexivity].
Qed.

(** What a run of [postDeploy] adds to the charts and to the console. *)
Lemma postDeploy_additions (Team : Type) (sdk : Sdk) (this : WeaveGitOpsAddOn)
  (clusterInfo : ClusterInfo) (teams : list Team) (w : World) :
  let w' := after (postDeploy sdk this clusterInfo teams w) in
  let request :=
    bootstrap_request this clusterInfo (bootstrapRepository w) [] [] in
  let line e := {| text := postDeploy_failed; interpolated := e |} in
  (exists e, submitted w' = submitted w /\ console w' = console w ++ [line e])
  \/ (submitted w' = submitted w ++ [request] /\ console w' = console w)
  \/ (exists e, submitted w' = submitted w ++ [request]
                /\ console w' = console w ++ [line e]).
Proof.
  cbv zeta.
  destruct (postDeploy_cases Team sdk this clusterInfo teams w)
    as (w1 & Hsub & Hcon & _ & _ & _ & _ & _ & _ & [[e ->] | [-> | [e ->]]]);
    unfold after; cbn [fst submitted console with_console with_submitted];
    rewrite Hsub, Hcon;
    [left; exists e | right; left | right; right; exists e]; split; reflexivity.
Qed.

Lemma new_requests_of_additions (w w' : World) (l : list Chart.Request) :
  submitted w' = submitted w ++ l -> new_requests w w' = l.
Proof. unfold new_requests. intros ->. apply skipn_length_app. Qed.

Lemma new_lines_of_additions (w w' : World) (l : list LogLine) :
  console w' = console w ++ l -> new_lines w w' = l.
Proof. unfold new_lines. intros ->. apply skipn_length_app. Qed.

(** The only request [postDeploy] can add. *)
Lemma postDeploy_new_request (Team : Type) (sdk : Sdk) (this : WeaveGitOpsAddOn)
  (clusterInfo : ClusterInfo) (teams : list Team) (w : World)
  (request : Chart.Request) :
  In request (new_requests w (after (postDeploy sdk this clusterInfo teams w))) ->
  request = bootstrap_request this clusterInfo (bootstrapRepository w) [] [].
Proof.
  destruct (postDeploy_additions Team sdk this clusterInfo teams w)
    as [(e & Hsub & _) | [(Hsub & _) | (e & Hsub & _)]];
    [rewrite <- (app_nil_r (submitted w)) in Hsub | |];
    rewrite (new_requests_of_additions _ _ _ Hsub); simpl; intuition.
Qed.

(** X1. An add-on built by [constructor(repository, namespace)] puts the
    same namespace on every request of both hooks: the argument when one
    is given, ["wego-system"] otherwise. *)
Theorem requests_carry_the_namespace (Team : Type) (sdk : Sdk)
  (namespace : option jsstring) (clusterInfo : ClusterInfo)
  (teams : list Team) (w w1 : World) (request : Chart.Request) :
  In request (new_requests w (after (deploy (constructor namespace) clusterInfo w)))
  \/ In request
       (new_requests w1
          (after (postDeploy sdk (constructor namespace) clusterInfo teams w1))) ->
  Chart.namespace (Chart.options request)
  = match namespace with
    | Some n => n
    | None => str "wego-system"
    end.
Proof.
  intros [Hd | Hp].
  - destruct (deploy_cases (constructor namespace) clusterInfo w)
      as [Heq | [e Heq]]; rewrite Heq in Hd; unfold after, new_requests in Hd;
      cbn [fst submitted with_submitted with_console] in Hd;
      rewrite skipn_length_app in Hd; destruct Hd as [<- | []]; reflexivity.
  - apply postDeploy_new_request in Hp. rewrite Hp. reflexivity.
Qed.

Lemma requests_carry_the_namespace_witness :
  let w := initial (repository None None None None) in
  let request := core_request (constructor None) in
  In request (new_requests w (after (deploy (constructor None) accepting_cluster w)))
  /\ Chart.namespace (Chart.options request) = str "wego-system".
Proof.
  cbv zeta.
  assert (Hin : In (core_request (constructor None))
                   (new_requests (initial (repository None None None None))
                      (after (deploy (constructor None) accepting_cluster
                                (initial (repository None None None None))))))
    by (left; reflexivity).
  split; [exact Hin|].
  exact (requests_carry_the_namespace unit
           (service (fun _ _ => secret_string sample_payload)) None
           accepting_cluster (@nil unit) _
           (initial (repository None None None None)) _ (or_introl Hin)).
Defined.

(** X2. Whatever request [postDeploy] submits, its [privateKey] and
    [knownHosts] are empty: line 101 lets only absent or empty
    credentials through, and those encode to the empty string. *)
Theorem postDeploy_submits_empty_credentials (Team : Type) (sdk : Sdk)
  (this : WeaveGitOpsAddOn) (clusterInfo : ClusterInfo) (teams : list Team)
  (w : World) (request : Chart.Request) :
  In request (new_requests w (after (postDeploy sdk this clusterInfo teams w))) ->
  exists application,
    Chart.values (Chart.options request)
      = Some {| Chart.applications := [application] |}
    /\ Chart.privateKey application = []
    /\ Chart.knownHosts application = [].
Proof.
  intros Hin. apply postDeploy_new_request in Hin. rewrite Hin.
  eexists. repeat split.
Qed.

Lemma postDeploy_submits_empty_credentials_witness :
  let w := initial (repository None (Some []) None None) in
  let request :=
    bootstrap_request (constructor None) accepting_cluster
      (bootstrapRepository w) [] [] in
  In request
     (new_requests w
        (after (postDeploy (service (fun _ _ => secret_string sample_payload))
                  (constructor None) accepting_cluster (@nil unit) w)))
  /\ exists application,
       Chart.values (Chart.options request)
         = Some {| Chart.applications := [application] |}
       /\ Chart.privateKey application = []
       /\ Chart.knownHosts application = [].
Proof.
  cbv zeta.
  assert (Hin : In (bootstrap_request (constructor None) accepting_cluster
                      (bootstrapRepository
                         (initial (repository None (Some []) None None))) [] [])
                   (new_requests (initial (repository None (Some []) None None))
                      (after (postDeploy
                                (service (fun _ _ => secret_string sample_payload))
                                (constructor None) accepting_cluster (@nil unit)
                                (initial (repository None (Some []) None None))))))
    by (left; reflexivity).
  split; [exact Hin|].
  exact (postDeploy_submits_empty_credentials unit _ _ _ _ _ _ Hin).
Defined.

(** X3. Whatever request [postDeploy] submits has id
    ["weave-gitops-application"], chart ["wego-app"], the fixed repository
    URL and version ["0.0.1"], and its application entry carries the
    repository's [path] and [branch] as they were on entry. *)
Theorem postDeploy_request_identity (Team : Type) (sdk : Sdk)
  (this : WeaveGitOpsAddOn) (clusterInfo : ClusterInfo) (teams : list Team)
  (w : World) (request : Chart.Request) :
  In request (new_requests w (after (postDeploy sdk this clusterInfo teams w))) ->
  Chart.id request = str "weave-gitops-application"
  /\ Chart.chart (Chart.options request) = str "wego-app"
  /\ Chart.repository (Chart.options request)
     = str "https://murillodigital.github.io/wego-helm"
  /\ Chart.version (Chart.options request) = str "0.0.1"
  /\ exists application,
       Chart.values (Chart.options request)
         = Some {| Chart.applications := [application] |}
       /\ Chart.path application = Repo.path (bootstrapRepository w)
       /\ Chart.branch application = Repo.branch (bootstrapRepository w).
Proof.
  intros Hin. apply postDeploy_new_request in Hin. rewrite Hin.
  repeat split. eexists. repeat split.
Qed.

Lemma postDeploy_request_identity_witness :
  let w := initial (repository None None None None) in
  let request :=
    bootstrap_request (constructor None) accepting_cluster
      (bootstrapRepository w) [] [] in
  In request
     (new_requests w
        (after (postDeploy (service (fun _ _ => secret_string sample_payload))
                  (constructor None) accepting_cluster (@nil unit) w)))
  /\ Chart.id request = str "weave-gitops-application"
  /\ Chart.chart (Chart.options request) = str "wego-app"
  /\ Chart.repository (Chart.options request)
     = str "https://murillodigital.github.io/wego-helm"
  /\ Chart.version (Chart.options request) = str "0.0.1"
  /\ exists application,
       Chart.values (Chart.options request)
         = Some {| Chart.applications := [application] |}
       /\ Chart.path application = str "./"
       /\ Chart.branch application = str "main".
Proof.
  cbv zeta.
  assert (Hin : In (bootstrap_request (constructor None) accepting_cluster
                      (bootstrapRepository
                         (initial (repository None None None None))) [] [])
                   (new_requests (initial (repository None None None None))
                      (after (postDeploy
                                (service (fun _ _ => secret_string sample_payload))
                                (constructor None) accepting_cluster (@nil unit)
                                (initial (repository None None None None))))))
    by (left; reflexivity).
  split; [exact Hin|].
  exact (postDeploy_request_identity unit _ _ _ _ _ _ Hin).
Defined.

(** X4. [postDeploy] never ends without a trace: it adds at most one
    request and at most one console line, and when it adds no request it
    has logged a failure. *)
Theorem postDeploy_request_or_failure (Team : Type) (sdk : Sdk)
  (this : WeaveGitOpsAddOn) (clusterInfo : ClusterInfo) (teams : list Team)
  (w : World) :
  let w' := after (postDeploy sdk this clusterInfo teams w) in
  (new_requests w w' = []
   /\ exists e, new_lines w w'
                = [ {| text := postDeploy_failed; interpolated := e |} ])
  \/ (exists request,
        new_requests w w' = [request]
        /\ (new_lines w w' = []
            \/ exists e, new_lines w w'
                         = [ {| text := postDeploy_failed; interpolated := e |} ])).
Proof.
  cbv zeta.
  destruct (postDeploy_additions Team sdk this clusterInfo teams w)
    as [(e & Hsub & Hcon) | [(Hsub & Hcon) | (e & Hsub & Hcon)]].
  - left. rewrite <- (app_nil_r (submitted w)) in Hsub.
    rewrite (new_requests_of_additions _ _ _ Hsub),
      (new_lines_of_additions _ _ _ Hcon). eauto.
  - right. rewrite <- (app_nil_r (console w)) in Hcon.
    rewrite (new_requests_of_additions _ _ _ Hsub),
      (new_lines_of_additions _ _ _ Hcon). eauto.
  - right.
    rewrite (new_requests_of_additions _ _ _ Hsub),
      (new_lines_of_additions _ _ _ Hcon). eauto.
Qed.

(** X5. The store is asked exactly when [secretName] is a non-empty
    string, once, for that very name; an empty [secretName] counts as
    unset.  [deploy] never asks. *)
Theorem store_is_asked_for_a_named_secret_only (Team : Type) (sdk : Sdk)
  (this : WeaveGitOpsAddOn) (clusterInfo : ClusterInfo) (teams : list Team)
  (w : World) :
  requested (after (postDeploy sdk this clusterInfo teams w))
  = requested w ++ store_requests (Repo.secretName (bootstrapRepository w))
  /\ requested (after (deploy this clusterInfo w)) = requested w.
Proof.
  split.
  - destruct (postDeploy_cases Team sdk this clusterInfo teams w)
      as (w1 & _ & _ & Hreq & _ & _ & _ & _ & _ & [[e ->] | [-> | [e ->]]]);
      exact Hreq.
  - destruct (deploy_cases this clusterInfo w) as [-> | [e ->]]; reflexivity.
Qed.

(** X6. [postDeploy] only ever appends: the charts and console lines that
    were there stay in place, the repository keeps [URL], [branch], [path]
    and [secretName], and with no secret named the whole repository and
    the pending callbacks are as before. *)
Theorem postDeploy_only_appends (Team : Type) (sdk : Sdk)
  (this : WeaveGitOpsAddOn) (clusterInfo : ClusterInfo) (teams : list Team)
  (w : World) :
  let w' := after (postDeploy sdk this clusterInfo teams w) in
  submitted w' = submitted w ++ new_requests w w'
  /\ console w' = console w ++ new_lines w w'
  /\ Repo.URL (bootstrapRepository w') = Repo.URL (bootstrapRepository w)
  /\ Repo.branch (bootstrapRepository w') = Repo.branch (bootstrapRepository w)
  /\ Repo.path (bootstrapRepository w') = Repo.path (bootstrapRepository w)
  /\ Repo.secretName (bootstrapRepository w')
     = Repo.secretName (bootstrapRepository w)
  /\ (store_requests (Repo.secretName (bootstrapRepository w)) = [] ->
      bootstrapRepository w' = bootstrapRepository w
      /\ pending w' = pending w).
Proof.
  cbv zeta.
  destruct (postDeploy_cases Team sdk this clusterInfo teams w)
    as (w1 & Hsub & Hcon & _ & Hurl & Hbranch & Hpath & Hname & Hsame & Hend).
  assert (Hw : forall w2,
             bootstrapRepository w2 = bootstrapRepository w1 ->
             pending w2 = pending w1 ->
             (exists l, submitted w2 = submitted w ++ l) ->
             (exists l, console w2 = console w ++ l) ->
             submitted w2 = submitted w ++ new_requests w w2
             /\ console w2 = console w ++ new_lines w w2
             /\ Repo.URL (bootstrapRepository w2) = Repo.URL (bootstrapRepository w)
             /\ Repo.branch (bootstrapRepository w2)
                = Repo.branch (bootstrapRepository w)
             /\ Repo.path (bootstrapRepository w2)
                = Repo.path (bootstrapRepository w)
             /\ Repo.secretName (bootstrapRepository w2)
                = Repo.secretName (bootstrapRepository w)
             /\ (store_requests (Repo.secretName (bootstrapRepository w)) = [] ->
                 bootstrapRepository w2 = bootstrapRepository w
                 /\ pending w2 = pending w)).
  { intros w2 Hrepo Hpend [l Hl] [m Hm].
    rewrite (new_requests_of_additions _ _ _ Hl),
      (new_lines_of_additions _ _ _ Hm), Hrepo, Hpend.
    repeat (split; [assumption|]).
    intros Hnone. rewrite (Hsame Hnone). split; reflexivity. }
  destruct Hend as [[e Heq] | [Heq | [e Heq]]]; rewrite Heq;
    apply Hw; try reflexivity; unfold after;
    cbn [fst submitted console with_console with_submitted];
    rewrite ?Hsub, ?Hcon; eexists; try reflexivity;
    symmetry; apply app_nil_r.
Qed.

Lemma postDeploy_only_appends_witness :
  let w := initial (repository (Some []) (Some (str "key")) None None) in
  let w' := after (postDeploy (service (fun _ _ => secret_string sample_payload))
                     (constructor None) accepting_cluster (@nil unit) w) in
  store_requests (Repo.secretName (bootstrapRepository w)) = []
  /\ bootstrapRepository w' = bootstrapRepository w
  /\ pending w' = pending w.
Proof.
  cbv zeta. split; [reflexivity|].
  apply (postDeploy_only_appends unit
           (service (fun _ _ => secret_string sample_payload))
           (constructor None) accepting_cluster (@nil unit)
           (initial (repository (Some []) (Some (str "key")) None None))).
  reflexivity.
Defined.

(** X7. With a secret named and the real service behind the client,
    [postDeploy] never installs the bootstrap chart, whatever the service
    answers: it asks once, logs the resolver's SyntaxError, and leaves the
    repository as it was. *)
Theorem named_secret_never_bootstraps (Team : Type)
  (answer : list jsstring -> jsstring -> Aws.reply)
  (this : WeaveGitOpsAddOn) (clusterInfo : ClusterInfo) (teams : list Team)
  (w : World) (c : Z) (name : jsstring) :
  Repo.secretName (bootstrapRepository w) = Some (c :: name) ->
  let w' := after (postDeploy (service answer) this clusterInfo teams w) in
  new_requests w w' = []
  /\ new_lines w w'
     = [ {| text := postDeploy_failed; interpolated := SyntaxError |} ]
  /\ bootstrapRepository w' = bootstrapRepository w
  /\ pending w' = pending w ++ [answer (requested w) (c :: name)].
Proof.
  intros Hname. cbv zeta.
  rewrite (postDeploy_service_named Team answer this clusterInfo teams w c name)
    by exact Hname.
  unfold after, new_requests, new_lines.
  cbn [fst submitted console bootstrapRepository pending with_console
       with_pending with_requested].
  repeat split; [apply skipn_length_self | apply skipn_length_app].
Qed.

Lemma named_secret_never_bootstraps_witness :
  let answer := fun (_ : list jsstring) (_ : jsstring) =>
                  secret_string sample_payload in
  let w := initial (repository (Some (str "bootstrap-ssh")) None None None) in
  let w' := after (postDeploy (service answer) (constructor None)
                     accepting_cluster (@nil unit) w) in
  Repo.secretName (bootstrapRepository w) = Some (str "bootstrap-ssh")
  /\ new_requests w w' = []
  /\ new_lines w w'
     = [ {| text := postDeploy_failed; interpolated := SyntaxError |} ]
  /\ bootstrapRepository w' = bootstrapRepository w
  /\ pending w' = [secret_string sample_payload].
Proof.
  cbv zeta. split; [reflexivity|].
  apply (named_secret_never_bootstraps unit
           (fun _ _ => secret_string sample_payload) (constructor None)
           accepting_cluster (@nil unit)
           (initial (repository (Some (str "bootstrap-ssh")) None None None))
           98 (str "ootstrap-ssh")).
  reflexivity.
Defined.

(** X8. In the lifecycle [deploy] then [postDeploy], the core chart is
    requested first and the bootstrap chart, if any, right after it;
    neither hook throws. *)
Theorem core_chart_precedes_bootstrap (Team : Type) (sdk : Sdk)
  (this : WeaveGitOpsAddOn) (clusterInfo : ClusterInfo) (teams : list Team)
  (w : World) :
  let r1 := deploy this clusterInfo w in
  let r2 := postDeploy sdk this clusterInfo teams (after r1) in
  outcome r1 = Normal tt
  /\ outcome r2 = Normal tt
  /\ (submitted (after r2) = submitted w ++ [core_request this]
      \/ submitted (after r2)
         = submitted w ++
           [core_request this;
            bootstrap_request this clusterInfo (bootstrapRepository w) [] []]).
Proof.
  cbv zeta.
  assert (Hd : outcome (deploy this clusterInfo w) = Normal tt
               /\ submitted (after (deploy this clusterInfo w))
                  = submitted w ++ [core_request this]
               /\ bootstrapRepository (after (deploy this clusterInfo w))
                  = bootstrapRepository w)
    by (destruct (deploy_cases this clusterInfo w) as [-> | [e ->]];
        repeat split).
  destruct Hd as (Hout & Hsub & Hrepo).
  split; [exact Hout|].
  set (w1 := after (deploy this clusterInfo w)) in *.
  split.
  - destruct (postDeploy_cases Team sdk this clusterInfo teams w1)
      as (w2 & _ & _ & _ & _ & _ & _ & _ & _ & [[e ->] | [-> | [e ->]]]);
      reflexivity.
  - destruct (postDeploy_additions Team sdk this clusterInfo teams w1)
      as [(e & Hs & _) | [(Hs & _) | (e & Hs & _)]];
      rewrite Hs, Hsub, ?Hrepo; [left; reflexivity | right | right];
      rewrite <- app_assoc; reflexivity.
Qed.

(** ** Further properties of the resolver *)

Lemma callback_throw_inv (answer : Aws.reply) (secret : jsstring) (e : thrown) :
  getSecretValue_callback answer secret = Throw e ->
  exists err, answer = inl err /\ e = Thrown_AWSError err
              /\ In (Aws.code err) store_error_codes.
Proof.
  destruct answer as [err | data]; unfold getSecretValue_callback.
  - unfold store_error_codes.
    repeat match goal with
           | |- context [JsString.eqb ?a ?b] =>
               let E := fresh "E" in
               destruct (JsString.eqb a b) eqn:E;
               [apply eqb_eq in E; intros [= <-]; exists err; rewrite E;
                simpl; tauto|]
           end.
    discriminate.
  - destruct (Aws.SecretString data); discriminate.
Qed.

Lemma parse_and_store_throw (secret : jsstring) (w w' : World) (e : thrown) :
  parse_and_store secret w = (w', Throw e) ->
  w' = w /\ (e = SyntaxError \/ e = TypeError_read_of_null).
Proof.
  unfold parse_and_store.
  destruct (JSON_parse secret) as [[]|]; cbn; intros [= <- <-];
    split; tauto.
Qed.


(** X9. A store error whose code is not one of the five listed at lines
    54-63 is dropped by the callback: whenever it is delivered, the
    resolver fails with the SyntaxError of the empty text instead, the
    repository is untouched, and nothing is thrown later. *)
Theorem unlisted_store_error_is_dropped (sdk : Sdk) (name : jsstring)
  (w : World) (when : Aws.delivery) (err : Aws.AWSError) :
  secretsManager sdk (requested w) name = (when, inl err) ->
  ~ In (Aws.code err) store_error_codes ->
  let r := getSshKeyFromSecret sdk name w in
  outcome r = Throw SyntaxError
  /\ bootstrapRepository (after r) = bootstrapRepository w
  /\ uncaught (after r) = uncaught w.
Proof.
  intros Hanswer Hcode. cbv zeta.
  unfold getSshKeyFromSecret, bind, getSecretValue. rewrite Hanswer.
  destruct when.
  - rewrite callback_unlisted by exact Hcode. repeat split.
  - cbn. repeat split. unfold uncaught.
    cbn [pending with_pending with_requested].
    rewrite flat_map_app. cbn [flat_map].
    rewrite callback_unlisted by exact Hcode. rewrite !app_nil_r. reflexivity.
Qed.

Lemma unlisted_store_error_is_dropped_witness :
  let sdk := client Aws.Deferred (inl access_denied) in
  let w := initial (repository (Some (str "bootstrap-ssh")) None None None) in
  let r := getSshKeyFromSecret sdk (str "bootstrap-ssh") w in
  ~ In (Aws.code access_denied) store_error_codes
  /\ outcome r = Throw SyntaxError
  /\ bootstrapRepository (after r) = bootstrapRepository w
  /\ uncaught (after r) = [].
Proof.
  cbv zeta.
  assert (Hcode : ~ In (Aws.code access_denied) store_error_codes)
    by (vm_compute; intuition discriminate).
  split; [exact Hcode|].
  apply (unlisted_store_error_is_dropped
           (client Aws.Deferred (inl access_denied)) (str "bootstrap-ssh")
           (initial (repository (Some (str "bootstrap-ssh")) None None None))
           Aws.Deferred access_denied); [reflexivity | exact Hcode].
Defined.

(** X10. The resolver is all-or-nothing: whenever it throws, the
    repository is exactly as before, and what it throws is a SyntaxError,
    the TypeError of reading a member of [null], or a store error with one
    of the five listed codes. *)
Theorem getSshKeyFromSecret_all_or_nothing (sdk : Sdk) (name : jsstring)
  (w : World) (e : thrown) :
  outcome (getSshKeyFromSecret sdk name w) = Throw e ->
  bootstrapRepository (after (getSshKeyFromSecret sdk name w))
  = bootstrapRepository w
  /\ (e = SyntaxError
      \/ e = TypeError_read_of_null
      \/ exists err, e = Thrown_AWSError err
                     /\ In (Aws.code err) store_error_codes).
Proof.
  unfold getSshKeyFromSecret, bind, getSecretValue, outcome, after.
  destruct (secretsManager sdk (requested w) name) as [[|] answer].
  - destruct (getSecretValue_callback answer []) as [secret | e'] eqn:Hcb.
    + destruct (parse_and_store secret (with_requested name w))
        as [w' c] eqn:Hps.
      cbn [fst snd]. intros ->.
      apply parse_and_store_throw in Hps as [-> He]. split; [reflexivity|tauto].
    + cbn [fst snd]. intros [= ->].
      apply callback_throw_inv in Hcb as (err & _ & -> & Hin).
      split; [reflexivity|]. right; right. exists err. tauto.
  - cbn. intros [= <-]. split; [reflexivity | tauto].
Qed.

Lemma getSshKeyFromSecret_all_or_nothing_witness :
  let sdk := synchronous_stub (secret_string (str "null")) in
  let w := initial (repository (Some (str "bootstrap-ssh"))
                      (Some (str "old key")) None (Some (str "old hosts"))) in
  outcome (getSshKeyFromSecret sdk (str "bootstrap-ssh") w)
    = Throw TypeError_read_of_null
  /\ bootstrapRepository (after (getSshKeyFromSecret sdk (str "bootstrap-ssh") w))
     = bootstrapRepository w.
Proof.
  cbv zeta. split; [reflexivity|].
  apply (getSshKeyFromSecret_all_or_nothing
           (synchronous_stub (secret_string (str "null")))
           (str "bootstrap-ssh")
           (initial (repository (Some (str "bootstrap-ssh"))
                       (Some (str "old key")) None (Some (str "old hosts"))))
           TypeError_read_of_null).
  reflexivity.
Defined.





(** ** Further properties of [base64EncodeContents] *)

Lemma list_ind3 {A} (P : list A -> Prop) :
  P [] -> (forall x, P [x]) -> (forall x y, P [x; y]) ->
  (forall x y z rest, P rest -> P (x :: y :: z :: rest)) ->
  forall l, P l.
Proof.
  intros H0 H1 H2 H3. fix IH 1.
  intros [|x [|y [|z rest]]]; [exact H0 | apply H1 | apply H2 |].
  apply H3, IH.
Qed.

Lemma sextet_char_in_alphabet (i : Z) :
  0 <= i < 64 -> is_base64_char (Buffer.sextet_char i) = true.
Proof.
  intros Hi. unfold is_base64_char. rewrite char_sextet_char by exact Hi.
  reflexivity.
Qed.

Lemma toString_base64_alphabet (b : Buffer.bytes) :
  Forall is_byte b ->
  Forall (fun c => is_base64_char c = true) (Buffer.toString_base64 b).
Proof.
  induction b as [| x | x y | x y z rest IH] using list_ind3; intros Hb.
  - constructor.
  - inversion Hb as [|? ? Hx _]; subst. unfold is_byte in Hx.
    cbn [Buffer.toString_base64].
    repeat constructor; apply sextet_char_in_alphabet; dm_lia.
  - inversion Hb as [|? ? Hx Hb1]; subst. inversion Hb1 as [|? ? Hy _]; subst.
    unfold is_byte in Hx, Hy. cbn [Buffer.toString_base64].
    repeat constructor; apply sextet_char_in_alphabet; dm_lia.
  - inversion Hb as [|? ? Hx Hb1]; subst. inversion Hb1 as [|? ? Hy Hb2]; subst.
    inversion Hb2 as [|? ? Hz Hb3]; subst. unfold is_byte in Hx, Hy, Hz.
    change (Buffer.toString_base64 (x :: y :: z :: rest))
      with (Buffer.sextet_char (x / 4)
            :: Buffer.sextet_char ((x mod 4) * 16 + y / 16)
            :: Buffer.sextet_char ((y mod 16) * 4 + z / 64)
            :: Buffer.sextet_char (z mod 64)
            :: Buffer.toString_base64 rest).
    repeat (constructor; [apply sextet_char_in_alphabet; dm_lia|]).
    apply IH, Hb3.
Qed.

Lemma toString_base64_length (b : Buffer.bytes) :
  List.length (Buffer.toString_base64 b) = (4 * ((List.length b + 2) / 3))%nat.
Proof.
  induction b as [| x | x y | x y z rest IH] using list_ind3;
    try reflexivity.
  change (Buffer.toString_base64 (x :: y :: z :: rest))
    with (Buffer.sextet_char (x / 4)
          :: Buffer.sextet_char ((x mod 4) * 16 + y / 16)
          :: Buffer.sextet_char ((y mod 16) * 4 + z / 64)
          :: Buffer.sextet_char (z mod 64)
          :: Buffer.toString_base64 rest).
  cbn [List.length]. rewrite IH.
  replace (S (S (S (List.length rest))) + 2)%nat
    with (List.length rest + 2 + 1 * 3)%nat by lia.
  rewrite Nat.div_add by lia. lia.
Qed.

Lemma toString_base64_app (a b : Buffer.bytes) :
  (List.length a mod 3 = 0)%nat ->
  Buffer.toString_base64 (a ++ b)
  = Buffer.toString_base64 a ++ Buffer.toString_base64 b.
Proof.
  induction a as [| x | x y | x y z rest IH] using list_ind3; intros Hlen.
  - reflexivity.
  - discriminate Hlen.
  - discriminate Hlen.
  - change (Buffer.toString_base64 ((x :: y :: z :: rest) ++ b))
      with (Buffer.sextet_char (x / 4)
            :: Buffer.sextet_char ((x mod 4) * 16 + y / 16)
            :: Buffer.sextet_char ((y mod 16) * 4 + z / 64)
            :: Buffer.sextet_char (z mod 64)
            :: Buffer.toString_base64 (rest ++ b)).
    rewrite IH; [reflexivity|].
    cbn [List.length] in Hlen.
    replace (S (S (S (List.length rest))))
      with (List.length rest + 1 * 3)%nat in Hlen by lia.
    rewrite Nat.Div0.mod_add in Hlen. exact Hlen.
Qed.

(** X13. The output of [base64EncodeContents] is made of the characters
    A-Z, a-z, 0-9, +, / and = only, whatever the input holds, and is
    4 * ceil(n / 3) characters long for an input of n code units. *)
Theorem base64EncodeContents_output (contents : jsstring) :
  Forall (fun c => is_base64_char c = true) (base64EncodeContents contents)
  /\ List.length (base64EncodeContents contents)
     = (4 * ((List.length contents + 2) / 3))%nat.
Proof.
  unfold base64EncodeContents. split.
  - apply toString_base64_alphabet, from_binary_bytes.
  - rewrite toString_base64_length. unfold Buffer.from_binary.
    rewrite length_map. reflexivity.
Qed.

(** X14. On strings whose code units are all below 256,
    [base64EncodeContents] is injective: two different keys never get the
    same encoding. *)
Theorem base64EncodeContents_injective (s t : jsstring) :
  is_binary s = true -> is_binary t = true -> s <> t ->
  base64EncodeContents s <> base64EncodeContents t.
Proof.
  intros Hs Ht Hne Heq. apply Hne.
  pose proof (decode_base64EncodeContents s) as Ds.
  pose proof (decode_base64EncodeContents t) as Dt.
  rewrite Heq, Dt in Ds. injection Ds as Ds.
  rewrite (from_binary_id s Hs), (from_binary_id t Ht) in Ds.
  symmetry. exact Ds.
Qed.

Lemma base64EncodeContents_injective_witness :
  is_binary (str "key one") = true
  /\ is_binary (str "key two") = true
  /\ str "key one" <> str "key two"
  /\ base64EncodeContents (str "key one") <> base64EncodeContents (str "key two").
Proof.
  assert (Hne : str "key one" <> str "key two") by (vm_compute; discriminate).
  split; [reflexivity|]. split; [reflexivity|]. split; [exact Hne|].
  apply (base64EncodeContents_injective (str "key one") (str "key two"));
    [reflexivity | reflexivity | exact Hne].
Defined.

(** X15. Encoding distributes over concatenation when the first part has
    a length that is a multiple of three: such a part ends on a group
    boundary and is encoded without padding. *)
Theorem base64EncodeContents_app (s t : jsstring) :
  (List.length s mod 3 = 0)%nat ->
  base64EncodeContents (s ++ t)
  = base64EncodeContents s ++ base64EncodeContents t.
Proof.
  intros Hlen. unfold base64EncodeContents, Buffer.from_binary.
  rewrite map_app. apply toString_base64_app.
  rewrite length_map. exact Hlen.
Qed.

Lemma base64EncodeContents_app_witness :
  (List.length (str "abc") mod 3 = 0)%nat
  /\ base64EncodeContents (str "abc" ++ str "de")
     = base64EncodeContents (str "abc") ++ base64EncodeContents (str "de").
Proof.
  split; [reflexivity|].
  apply (base64EncodeContents_app (str "abc") (str "de")). reflexivity.
Defined.
